(** * gSPI bus driver for the CYW43439: command codec, register access,
      bring-up handshake and CLM location.

    The development embeds [cy43439.go] (command codec, register access
    layer, bus exchanges, [Init]) and the [GetCLM]/[align32] pair of the
    firmware helper file.  Go's [uint32] is a [Z] with the wrap-around
    written out, bytes are [Z] in [0, 256), the device handle is a record,
    and every hardware effect (pin writes, SPI transfers, sleeps, prints)
    is appended to an event trace carried by the state. *)

From Stdlib Require Import String ZArith List Bool Lia.
Import ListNotations.
Local Open Scope string_scope.
Local Open Scope list_scope.
Local Open Scope Z_scope.

(* ===================================================================== *)
(** ** Machine integers *)

Module U32.

(** Truncation of a mathematical integer to Go's [uint32]. *)
Definition wrap (z : Z) : Z := z mod 2 ^ 32.

(** [x << n] on [uint32]. *)
Definition shl (x n : Z) : Z := wrap (Z.shiftl x n).

(** [x >> n] on [uint32]. *)
Definition shr (x n : Z) : Z := Z.shiftr x n.

(** [x + y] on [uint32]. *)
Definition add (x y : Z) : Z := wrap (x + y).

(** [x - y] on [uint32]. *)
Definition sub (x y : Z) : Z := wrap (x - y).

(** [x &^ y] on [uint32] (bit clear). *)
Definition andnot (x y : Z) : Z := Z.ldiff x y.

(** [byte(x)]: conversion of an unsigned integer to [uint8]. *)
Definition to_byte (x : Z) : Z := x mod 2 ^ 8.

Definition in_range (z : Z) : Prop := 0 <= z < 2 ^ 32.

End U32.

(* ===================================================================== *)
(** ** Command codec ([make_cmd], [b2u32]) *)

(** [type Function uint32] with its four named values. *)
Definition Function := Z.
Definition FuncAllSPIRegisters : Function := 0.
Definition FuncExtraSPIRegisters : Function := 1.
Definition FuncDMA1 : Function := 2.
Definition FuncDMA2 : Function := 3.

Definition b2u32 (b : bool) : Z := if b then 1 else 0.

(** [b2u32(write)<<31 | b2u32(inc)<<30 | uint32(fn)<<28 | (addr&0x1ffff)<<11 | sz] *)
Definition make_cmd (write inc : bool) (fn : Function) (addr sz : Z) : Z :=
  Z.lor (Z.lor (Z.lor (Z.lor (U32.shl (b2u32 write) 31)
                             (U32.shl (b2u32 inc) 30))
                      (U32.shl fn 28))
               (U32.shl (Z.land addr 0x1ffff) 11))
        sz.

(** Field extraction at the fixed bit positions of the command word. *)
Module Cmd.
Definition write (c : Z) : bool := Z.testbit c 31.
Definition inc (c : Z) : bool := Z.testbit c 30.
Definition fn (c : Z) : Z := Z.land (Z.shiftr c 28) 3.
Definition addr (c : Z) : Z := Z.land (Z.shiftr c 11) 0x1ffff.
Definition size (c : Z) : Z := Z.land c 0x7ff.
Definition decode (c : Z) : bool * bool * Z * Z * Z :=
  (write c, inc c, fn c, addr c, size c).
End Cmd.

(* ===================================================================== *)
(** ** Byte order ([encoding/binary]) *)

(** [binary.LittleEndian.Uint32(b)]: [b[0] | b[1]<<8 | b[2]<<16 | b[3]<<24];
    a buffer shorter than four bytes makes Go panic, here the missing
    bytes read as zero (the driver only passes four-byte buffers). *)
Definition LittleEndian_Uint32 (b : list Z) : Z :=
  Z.lor (Z.lor (Z.lor (nth 0 b 0) (U32.shl (nth 1 b 0) 8))
               (U32.shl (nth 2 b 0) 16))
        (U32.shl (nth 3 b 0) 24).

(** [binary.BigEndian.PutUint32(buf[:], v)] on a four-byte buffer. *)
Definition BigEndian_PutUint32 (v : Z) : list Z :=
  [U32.to_byte (U32.shr v 24); U32.to_byte (U32.shr v 16);
   U32.to_byte (U32.shr v 8); U32.to_byte v].

(** The four bytes [writeU32LittleEndian] clocks out, in order. *)
Definition le_bytes (v : Z) : list Z :=
  [U32.to_byte v; U32.to_byte (U32.shr v 8);
   U32.to_byte (U32.shr v 16); U32.to_byte (U32.shr v 24)].

(** [unsafe.Slice] over the [uint32] view of [&w[0]], length [n]: the
    first [n] words of the byte buffer as the host reads them.  The driver targets
    the RP2040 (see [PicoWSpi]), a little-endian core, so each word is
    the little-endian reading of four consecutive bytes. *)
Fixpoint unsafe_Slice_u32 (w : list Z) (n : nat) : list Z :=
  match n with
  | O => []
  | S n' => LittleEndian_Uint32 (firstn 4 w) :: unsafe_Slice_u32 (skipn 4 w) n'
  end.

(** Reversal of the four bytes of a [uint32]. *)
Definition bswap32 (v : Z) : Z :=
  (v / 2 ^ 24) mod 256
  + 2 ^ 8 * ((v / 2 ^ 16) mod 256)
  + 2 ^ 16 * ((v / 2 ^ 8) mod 256)
  + 2 ^ 24 * (v mod 256).

(* ===================================================================== *)
(** ** Device handle, events and the environment *)

(** Go [error] values: what the [drivers.SPI] implementation returned, or
    a value made by [errors.New]. *)
Inductive error : Type :=
| TransportError (code : Z)
| ErrorsNew (msg : string).

(** [machine.PinConfig.Mode] values the driver uses. *)
Inductive PinMode : Type := PinOutput | PinInputPulldown.

(** Everything the driver does to the outside world. Pins are
    [machine.Pin] numbers. *)
Inductive Event : Type :=
| EvConfigure (pin : Z) (mode : PinMode)   (* pin.Configure(PinConfig{Mode: mode}) *)
| EvHigh (pin : Z)                         (* pin.High() *)
| EvLow (pin : Z)                          (* pin.Low() *)
| EvTransfer (b : Z)                       (* spi.Transfer(b), result dropped *)
| EvTx (n : nat) (r : list Z) (err : option error)
                                           (* spi.Tx(nil, r), len(r) = n; r afterwards *)
| EvSleep (ns : Z)                         (* time.Sleep *)
| EvPrint (s : string)                     (* print(s) *)
| EvPrintln (v : Z).                       (* println(v) *)

(** [type Dev struct]; the [spi] field is the environment below. *)
Record Dev : Type := mkDev {
  lastSize : Z;
  lastHeader : Z * Z;
  currentBackplaneWindow : Z;
  lastBackplaneWindow : Z;
  cs : Z;
  wlRegOn : Z;
  irq : Z;
  sharedSD : Z;
  buf : list Z
}.

(** The bus and the clock as the driver sees them: what [spi.Tx(nil, r)]
    delivers (bytes and, on failure, the transport's error code) and
    what the monotonic clock reads are functions of everything that
    happened so far. *)
Record Env : Type := mkEnv {
  env_transport : list Event -> nat -> list Z * option Z;
  env_now : list Event -> Z
}.

(** The reply of [spi.Tx] as Go values: the error, if any, is one of the
    transport's own. *)
Definition env_Tx (env : Env) (tr : list Event) (n : nat)
    : list Z * option error :=
  (fst (env_transport env tr n),
   option_map TransportError (snd (env_transport env tr n))).

Record State : Type := mkState { st_dev : Dev; st_trace : list Event }.

(** A call returns, panics, or (only for the model of the unbounded poll
    loop) runs out of fuel. *)
Inductive outcome (A : Type) : Type :=
| Ret (a : A) (s : State)
| Panic (msg : string) (s : State)
| OutOfFuel.
Arguments Ret {A} a s.
Arguments Panic {A} msg s.
Arguments OutOfFuel {A}.

Definition M (A : Type) : Type := State -> outcome A.

Definition ret {A} (a : A) : M A := fun s => Ret a s.

Definition bind {A B} (m : M A) (k : A -> M B) : M B :=
  fun s => match m s with
           | Ret a s' => k a s'
           | Panic msg s' => Panic msg s'
           | OutOfFuel => OutOfFuel
           end.

Declare Scope drv_scope.
Delimit Scope drv_scope with drv.
Notation "x <- m ;; k" := (bind m (fun x => k))
  (at level 61, m at next level, right associativity) : drv_scope.
Notation "m ;; k" := (bind m (fun _ => k))
  (at level 61, right associativity) : drv_scope.
Local Open Scope drv_scope.

Definition panic {A} (msg : string) : M A := fun s => Panic msg s.
Definition emit (e : Event) : M unit :=
  fun s => Ret tt (mkState (st_dev s) (st_trace s ++ [e])).
Definition get_dev : M Dev := fun s => Ret (st_dev s) s.
Definition get_trace : M (list Event) := fun s => Ret (st_trace s) s.
Definition put_dev (d : Dev) : M unit := fun s => Ret tt (mkState d (st_trace s)).

(* ===================================================================== *)
(** ** Constants of [cy43439.go] *)

Definition Millisecond : Z := 1000000.
Definition responseDelay_const : Z := 0.
Definition backplaneFunction : Z := 0.
Definition whdBusSPIBackplaneReadPadding : Z := 4.
Definition sharedDATA : bool := true.
Definition pollLimit : Z := 100 * Millisecond.
Definition TestRegisterAddr : Z := 0x14.
Definition TestRegisterExpectedValue : Z := 0xFEEDBEAD.

(** Constants local to [Init]. *)
Definition pollAddr : Z := 0x1400.
Definition pollExpect : Z := 0xADBEEDFE.
Definition WordLengthPos : Z := 31.
Definition EndianessPos : Z := 30.
Definition HiSpeedModePos : Z := 27.
Definition InterruptPolPos : Z := 26.
Definition WakeUpPos : Z := 24.

(** The value [Init] writes to bus register 0x0. *)
Definition initConfigValue : Z :=
  Z.lor (Z.lor (Z.lor (Z.lor (U32.shl 1 WakeUpPos) (U32.shl 1 InterruptPolPos))
                      (U32.shl 0 HiSpeedModePos))
               (U32.shl 0 EndianessPos))
        (U32.shl 1 WordLengthPos).

(* ===================================================================== *)
(** ** The driver *)

Section Driver.

Variable env : Env.

(** *** Transport primitives *)

(** What a buffer [r] holds after the transport delivered [reply]:
    bytes the transport did not write keep their contents. *)
Definition fill (r reply : list Z) : list Z :=
  firstn (length r) (map U32.to_byte reply ++ skipn (length reply) r).

(** [d.spi.Tx(nil, r)] *)
Definition spi_Tx_nil (r : list Z) : M (list Z * option error) :=
  tr <- get_trace;;
  let reply := env_Tx env tr (length r) in
  let r' := fill r (fst reply) in
  emit (EvTx (length r) r' (snd reply));;
  ret (r', snd reply).

(** [time.Now()] / [time.Since(start)] *)
Definition time_Now : M Z := tr <- get_trace;; ret (env_now env tr).
Definition time_Since (start : Z) : M Z :=
  now <- time_Now;; ret (now - start).

(** [writeU32LittleEndian]: four [spi.Transfer] calls, always [nil]. *)
Definition writeU32LittleEndian (v : Z) : M (option error) :=
  emit (EvTransfer (U32.to_byte v));;
  emit (EvTransfer (U32.to_byte (U32.shr v 8)));;
  emit (EvTransfer (U32.to_byte (U32.shr v 16)));;
  emit (EvTransfer (U32.to_byte (U32.shr v 24)));;
  ret None.

(** [for _, v := range w { d.writeU32LittleEndian(v) }] *)
Fixpoint write_words (w : list Z) : M unit :=
  match w with
  | [] => ret tt
  | v :: w' => _ <- writeU32LittleEndian v;; write_words w'
  end.

Definition is_err (e : option error) : bool :=
  match e with Some _ => true | None => false end.

(** [spiWrite32] *)
Definition spiWrite32 (command : Z) (w : list Z) : M (option error) :=
  d <- get_dev;;
  (if sharedDATA then emit (EvConfigure (sharedSD d) PinOutput) else ret tt);;
  err <- writeU32LittleEndian command;;
  if (Nat.eqb (length w) 0) || is_err err then ret err
  else write_words w;; ret None.

(** [responseDelay()]: the spin loop is guarded by
    [responseDelay != 0], and the constant is 0. *)
Definition responseDelay : M unit :=
  if responseDelay_const =? 0 then ret tt
  else panic "responseDelay: spin loop not modelled".

(** *** Bus exchanges *)

(** [SPIWriteRead] *)
Definition SPIWriteRead (command : Z) (r : list Z) : M (list Z * option error) :=
  d <- get_dev;;
  emit (EvLow (cs d));;
  err <- spiWrite32 command [];;
  match err with
  | Some e => ret (r, Some e)
  | None =>
      (if sharedDATA then emit (EvConfigure (sharedSD d) PinInputPulldown)
       else ret tt);;
      responseDelay;;
      res <- spi_Tx_nil r;;
      emit (EvHigh (cs d));;
      ret res
  end.

(** [SPIRead] *)
Definition SPIRead (command : Z) (r : list Z) : M (list Z * option error) :=
  d <- get_dev;;
  emit (EvLow (cs d));;
  err <- spiWrite32 command [];;
  emit (EvHigh (cs d));;
  match err with
  | Some e => ret (r, Some e)
  | None =>
      (if sharedDATA then emit (EvConfigure (sharedSD d) PinInputPulldown)
       else ret tt);;
      emit (EvLow (cs d));;
      responseDelay;;
      res <- spi_Tx_nil r;;
      emit (EvHigh (cs d));;
      ret res
  end.

(** [SPIWrite]: [&w[0]] is evaluated after [d.cs.Low()]. *)
Definition SPIWrite (command : Z) (w : list Z) : M (option error) :=
  d <- get_dev;;
  emit (EvLow (cs d));;
  match w with
  | [] => panic "index out of range [0] with length 0"
  | _ :: _ =>
      err <- spiWrite32 command (unsafe_Slice_u32 w (Nat.div (length w) 4));;
      emit (EvHigh (cs d));;
      ret err
  end.

(** *** Register access *)

(** [readReg] *)
Definition readReg (fn : Function) (reg : Z) (size : Z) : M (Z * option error) :=
  let padding := if fn =? backplaneFunction
                 then whdBusSPIBackplaneReadPadding else 0 in
  let cmd := make_cmd false true fn reg (U32.add (U32.wrap size) padding) in
  let buf0 := repeat 0 (Z.to_nat (4 + whdBusSPIBackplaneReadPadding)) in
  let n := Z.to_nat (4 + padding) in
  res <- SPIRead cmd (firstn n buf0);;
  let buf1 := fst res ++ skipn n buf0 in
  match snd res with
  | Some e => ret (0, Some e)
  | None => ret (LittleEndian_Uint32 (firstn 4 buf1), None)
  end.

Definition RegisterReadUint32 (fn : Function) (reg : Z) : M (Z * option error) :=
  res <- readReg fn reg 4;; ret (U32.wrap (fst res), snd res).

Definition RegisterReadUint16 (fn : Function) (reg : Z) : M (Z * option error) :=
  res <- readReg fn reg 2;; ret (fst res mod 2 ^ 16, snd res).

Definition RegisterReadUint8 (fn : Function) (reg : Z) : M (Z * option error) :=
  res <- readReg fn reg 1;; ret (fst res mod 2 ^ 8, snd res).

(** The bookkeeping update of [writeReg]. *)
Definition record_backplane_write (cmd val : Z) (d : Dev) : Dev :=
  mkDev 8 (cmd, val) (currentBackplaneWindow d) (currentBackplaneWindow d)
        (cs d) (wlRegOn d) (irq d) (sharedSD d) (buf d).

(** [writeReg]; [buf[:size]] panics for [size > 4]. *)
Definition writeReg (fn : Function) (reg val size : Z) : M (option error) :=
  let cmd := make_cmd true true fn reg size in
  let buf1 := BigEndian_PutUint32 val in
  (if fn =? backplaneFunction
   then d <- get_dev;; put_dev (record_backplane_write cmd val d)
   else ret tt);;
  if size >? 4 then panic "slice bounds out of range"
  else SPIWrite cmd (firstn (Z.to_nat size) buf1).

Definition RegisterWriteUint32 (fn : Function) (reg val : Z) : M (option error) :=
  writeReg fn reg val 4.

Definition RegisterWriteUint16 (fn : Function) (reg val : Z) : M (option error) :=
  writeReg fn reg val 2.

Definition RegisterWriteUint8 (fn : Function) (reg val : Z) : M (option error) :=
  writeReg fn reg val 1.

(** *** Bring-up *)

(** [gpioSetup] *)
Definition gpioSetup : M unit :=
  d <- get_dev;;
  emit (EvConfigure (wlRegOn d) PinOutput);;
  (if sharedDATA
   then emit (EvConfigure (sharedSD d) PinOutput);; emit (EvLow (sharedSD d))
   else ret tt);;
  emit (EvConfigure (cs d) PinOutput);;
  emit (EvHigh (cs d)).

(** The [for got != pollExpect { ... }] loop of [Init]. The result is
    [Some e] when the loop body returns [e] from [Init], [None] when
    the loop condition fails and control reaches the configuration
    write. *)
Fixpoint pollLoop (fuel : nat) (startPoll got : Z) : M (option error) :=
  match fuel with
  | O => fun _ => OutOfFuel
  | S fuel' =>
      if got =? pollExpect then ret None
      else
        res <- RegisterReadUint32 FuncAllSPIRegisters pollAddr;;
        match snd res with
        | Some e => ret (Some e)
        | None =>
            since <- time_Since startPoll;;
            if negb (fst res =? pollExpect) && (since >? pollLimit)
            then
              emit (EvPrint "poll failed with ");;
              emit (EvPrintln (fst res));;
              ret (Some (ErrorsNew "poll failed"))
            else pollLoop fuel' startPoll (fst res)
        end
  end.

(** [Init] *)
Definition Init (fuel : nat) : M (option error) :=
  d <- get_dev;;
  gpioSetup;;
  emit (EvHigh (wlRegOn d));;
  emit (EvSleep (60 * Millisecond));;
  startPoll <- time_Now;;
  early <- pollLoop fuel startPoll 0;;
  match early with
  | Some e => ret (Some e)
  | None =>
      err <- RegisterWriteUint32 FuncAllSPIRegisters 0x0 initConfigValue;;
      match err with
      | Some e => ret (Some e)
      | None => ret None
      end
  end.

End Driver.

(* ===================================================================== *)
(** ** Locating the CLM blob ([GetCLM], [align32]) *)

(** A Go [[]byte]: the backing array from the slice's first element on
    (its length is the capacity) and the slice length. *)
Record ByteSlice : Type := mkSlice { sl_arr : list Z; sl_len : nat }.

Definition sl_cap (s : ByteSlice) : nat := length (sl_arr s).
Definition sl_bytes (s : ByteSlice) : list Z := firstn (sl_len s) (sl_arr s).
Definition sl_wf (s : ByteSlice) : Prop := (sl_len s <= sl_cap s)%nat.

Inductive result (A : Type) : Type :=
| Ok (a : A)
| Panicked (msg : string).
Arguments Ok {A} a.
Arguments Panicked {A} msg.

(** [s[lo:hi]] on a slice: needs [0 <= lo <= hi <= cap(s)]. *)
Definition slice_expr (s : ByteSlice) (lo hi : Z) : result ByteSlice :=
  if (0 <=? lo) && (lo <=? hi) && (hi <=? Z.of_nat (sl_cap s))
  then Ok (mkSlice (skipn (Z.to_nat lo) (sl_arr s)) (Z.to_nat (hi - lo)))
  else Panicked "slice bounds out of range".

(** [(val + align - 1) &^ (align - 1)] on [uint32]. *)
Definition align32 (val align : Z) : Z :=
  U32.andnot (U32.sub (U32.add val align) 1) (U32.sub align 1).

Section CLM.

(** [clmLen] is declared with the firmware blobs, outside the files at
    hand; it is a [uint32]-compatible constant. *)
Variable clmLen : Z.

(** [GetCLM] *)
Definition GetCLM (firmware : ByteSlice) : result ByteSlice :=
  let clmAddr := align32 (U32.wrap (Z.of_nat (sl_len firmware))) 512 in
  if U32.wrap (Z.of_nat (sl_cap firmware)) <? U32.add clmAddr clmLen
  then Panicked "firmware slice too small for CLM"
  else slice_expr firmware clmAddr (U32.add clmAddr clmLen).

End CLM.

(** Largest value of Go's [int] on the 32-bit targets of the driver. *)
Definition maxInt : Z := 2 ^ 31 - 1.

(* ===================================================================== *)
(** ** Wire-level shape of the bus exchanges *)

(** Command phase of [spiWrite32]: data line to output, then the command
    word, low byte first. *)
Definition command_phase (d : Dev) (cmd : Z) : list Event :=
  EvConfigure (sharedSD d) PinOutput :: map EvTransfer (le_bytes cmd).

(** Events of one [SPIRead] whose [spi.Tx] left [r] in the buffer of
    [n] bytes and returned [err]. *)
Definition read_exchange (d : Dev) (cmd : Z) (n : nat) (r : list Z)
    (err : option error) : list Event :=
  [EvLow (cs d)] ++ command_phase d cmd ++
  [EvHigh (cs d); EvConfigure (sharedSD d) PinInputPulldown; EvLow (cs d);
   EvTx n r err; EvHigh (cs d)].

(** The part of a read exchange that precedes the [spi.Tx] call. *)
Definition read_request (d : Dev) (cmd : Z) : list Event :=
  [EvLow (cs d)] ++ command_phase d cmd ++
  [EvHigh (cs d); EvConfigure (sharedSD d) PinInputPulldown; EvLow (cs d)].

(** Events of one [SPIWrite] that clocks out the words [ws]. *)
Definition write_exchange (d : Dev) (cmd : Z) (ws : list Z) : list Event :=
  [EvLow (cs d)] ++ command_phase d cmd ++
  map EvTransfer (concat (map le_bytes ws)) ++ [EvHigh (cs d)].

(** Events of [gpioSetup], [wlRegOn.High()] and the 60 ms sleep. *)
Definition bringup_events (d : Dev) : list Event :=
  [EvConfigure (wlRegOn d) PinOutput; EvConfigure (sharedSD d) PinOutput;
   EvLow (sharedSD d); EvConfigure (cs d) PinOutput; EvHigh (cs d);
   EvHigh (wlRegOn d); EvSleep (60 * Millisecond)].

(** The command word of every handshake poll and of the configuration
    write. *)
Definition pollCommand : Z :=
  make_cmd false true FuncAllSPIRegisters pollAddr 8.
Definition configCommand : Z :=
  make_cmd true true FuncAllSPIRegisters 0 4.

(** Last element of a trace. *)
Definition last_event (tr : list Event) : option Event :=
  match rev tr with [] => None | e :: _ => Some e end.

(* ===================================================================== *)
(** ** Test environments *)

(** A scripted bus: the k-th [spi.Tx] call gets the k-th scripted reply,
    and the clock advances by [tick] nanoseconds per [spi.Tx]. *)
Module Script.

Definition is_Tx (e : Event) : bool :=
  match e with EvTx _ _ _ => true | _ => false end.

Definition count_Tx (tr : list Event) : nat := length (filter is_Tx tr).

Definition Tx (replies : list (list Z * option Z))
    (tr : list Event) (n : nat) : list Z * option Z :=
  nth (count_Tx tr) replies ([], None).

Definition env (replies : list (list Z * option Z)) (tick : Z) : Env :=
  mkEnv (Tx replies) (fun tr => tick * Z.of_nat (count_Tx tr)).

End Script.

(** A simulated chip that keeps a register store: it watches chip-select
    and the bytes clocked out, stores the payload bytes of every write
    command under the command's (function, address) fields, and answers
    a read command with the bytes stored there. *)
Module Sim.

Record t : Type := mk {
  store : list ((Z * Z) * list Z);
  selected : bool;
  rx : list Z;
  cmd : option Z
}.

Definition init : t := mk [] false [] None.

Fixpoint lookup (k : Z * Z) (st : list ((Z * Z) * list Z)) : list Z :=
  match st with
  | [] => []
  | (k', v) :: st' =>
      if (fst k' =? fst k) && (snd k' =? snd k) then v else lookup k st'
  end.

(** End of a chip-select window: a window of at least four bytes
    carries a command, and a write command's payload is stored. *)
Definition deselect (s : t) : t :=
  if selected s && (4 <=? length (rx s))%nat then
    let c := LittleEndian_Uint32 (firstn 4 (rx s)) in
    mk (if Cmd.write c
        then ((Cmd.fn c, Cmd.addr c), skipn 4 (rx s)) :: store s
        else store s)
       false [] (Some c)
  else mk (store s) false [] (cmd s).

Definition step (cspin : Z) (s : t) (e : Event) : t :=
  match e with
  | EvLow p => if p =? cspin then mk (store s) true [] (cmd s) else s
  | EvHigh p => if p =? cspin then deselect s else s
  | EvTransfer b =>
      if selected s then mk (store s) true (rx s ++ [b]) (cmd s) else s
  | _ => s
  end.

Definition run (cspin : Z) (tr : list Event) : t :=
  fold_left (step cspin) tr init.

Definition Tx (cspin : Z) (tr : list Event) (n : nat) : list Z * option Z :=
  match cmd (run cspin tr) with
  | Some c =>
      if Cmd.write c then ([], None)
      else (firstn n (lookup (Cmd.fn c, Cmd.addr c) (store (run cspin tr))), None)
  | None => ([], None)
  end.

Definition env (cspin : Z) : Env :=
  mkEnv (Tx cspin) (fun tr => 1000 * Z.of_nat (length tr)).

End Sim.

(** A device handle on the Pico W pins ([PicoWSpi]): CS is GPIO25,
    WL_REG_ON is GPIO23, the shared data/IRQ line is GPIO24. *)
Definition picoDev : Dev := mkDev 0 (0, 0) 0 0 25 23 24 24 (repeat 0 500).
Definition picoState : State := mkState picoDev [].

(* ===================================================================== *)
(** ** Reference notions used in the statements *)

(** Padding bytes a register read adds for function [fn]. *)
Definition read_padding (fn : Function) : Z :=
  if fn =? backplaneFunction then whdBusSPIBackplaneReadPadding else 0.

(** The command word of a register read / write. *)
Definition readCommand (fn : Function) (reg size : Z) : Z :=
  make_cmd false true fn reg (U32.add (U32.wrap size) (read_padding fn)).
Definition writeCommand (fn : Function) (reg size : Z) : Z :=
  make_cmd true true fn reg size.

(** A byte string read as a little-endian unsigned integer. *)
Fixpoint le_uint (bs : list Z) : Z :=
  match bs with
  | [] => 0
  | b :: bs' => b + 256 * le_uint bs'
  end.

(** A byte string read as a big-endian unsigned integer. *)
Definition be_uint (bs : list Z) : Z := le_uint (rev bs).

Definition is_byte (b : Z) : Prop := 0 <= b < 256.

(** The device handle after a register write: bookkeeping is updated
    for the backplane-function constant only. *)
Definition dev_after_write (fn : Function) (reg val size : Z) (d : Dev) : Dev :=
  if fn =? backplaneFunction
  then record_backplane_write (writeCommand fn reg size) val d
  else d.

(** Value a register read of [k] bytes hands back, given the buffer [r]
    the transport left and the transport's error. *)
Definition read_value (k : nat) (r : list Z) (err : option error)
    : Z * option error :=
  match err with
  | Some e => (0, Some e)
  | None => (le_uint (firstn k r), None)
  end.

(** Buffer lengths of the [spi.Tx] calls of a trace. *)
Definition tx_requests (tr : list Event) : list nat :=
  flat_map (fun e => match e with EvTx n _ _ => [n] | _ => [] end) tr.

(** Trace and value of a finished call. *)
Definition run_trace {A} (o : outcome A) : list Event :=
  match o with Ret _ s | Panic _ s => st_trace s | OutOfFuel => [] end.
Definition run_value {A} (o : outcome A) : option A :=
  match o with Ret a _ => Some a | _ => None end.
Definition run_dev {A} (o : outcome A) : option Dev :=
  match o with Ret _ s | Panic _ s => Some (st_dev s) | OutOfFuel => None end.

(** The exported register read of [size] bytes: [RegisterReadUint8],
    [RegisterReadUint16] or [RegisterReadUint32]. *)
Definition sized_read (env : Env) (size : Z) (fn : Function) (reg : Z)
    : M (Z * option error) :=
  if size =? 1 then RegisterReadUint8 env fn reg
  else if size =? 2 then RegisterReadUint16 env fn reg
  else RegisterReadUint32 env fn reg.

(* ===================================================================== *)
(** ** Runs of the handshake poll *)

(** Value decoded from the buffer of a poll read. *)
Definition poll_value (r : list Z) : Z := le_uint (firstn 4 r).

(** Events of one handshake poll. *)
Definition poll_exchange (d : Dev) (r : list Z) (err : option error)
    : list Event :=
  read_exchange d pollCommand 8 r err.

(** What the environment answers to a poll issued after trace [tr]:
    the buffer after [spi.Tx] and the transport's error. *)
Definition poll_reply (env : Env) (d : Dev) (tr : list Event)
    : list Z * option error :=
  let reply := env_Tx env (tr ++ read_request d pollCommand) 8 in
  (fill (repeat 0 8) (fst reply), snd reply).

(** How the poll loop ends: the pattern is read, the transport fails,
    or a wrong value is read past the deadline. *)
Inductive poll_ending : Type :=
| PollSeen (r : list Z)
| PollTransportError (r : list Z) (e : error)
| PollTimeout (r : list Z).

Definition ending_events (d : Dev) (e : poll_ending) : list Event :=
  match e with
  | PollSeen r => poll_exchange d r None
  | PollTransportError r e => poll_exchange d r (Some e)
  | PollTimeout r =>
      poll_exchange d r None ++
      [EvPrint "poll failed with "; EvPrintln (poll_value r)]
  end.

Definition ending_result (e : poll_ending) : option error :=
  match e with
  | PollSeen _ => None
  | PollTransportError _ e => Some e
  | PollTimeout _ => Some (ErrorsNew "poll failed")
  end.

Definition misses_events (d : Dev) (misses : list (list Z)) : list Event :=
  concat (map (fun r => poll_exchange d r None) misses).

(** The environment answers the polls issued from trace [tr] on with the
    buffers [misses], none of them the pattern and each within the
    deadline measured from [start]. *)
Fixpoint poll_misses (env : Env) (start : Z) (d : Dev) (tr : list Event)
    (misses : list (list Z)) : Prop :=
  match misses with
  | [] => True
  | r :: ms =>
      poll_reply env d tr = (r, None) /\
      poll_value r <> pollExpect /\
      env_now env (tr ++ poll_exchange d r None) - start <= pollLimit /\
      poll_misses env start d (tr ++ poll_exchange d r None) ms
  end.

(** The environment's answer to the poll issued after [tr] ends the loop
    in the given way. *)
Definition poll_end (env : Env) (start : Z) (d : Dev) (tr : list Event)
    (e : poll_ending) : Prop :=
  match e with
  | PollSeen r =>
      poll_reply env d tr = (r, None) /\ poll_value r = pollExpect
  | PollTransportError r e => poll_reply env d tr = (r, Some e)
  | PollTimeout r =>
      poll_reply env d tr = (r, None) /\
      poll_value r <> pollExpect /\
      env_now env (tr ++ poll_exchange d r None) - start > pollLimit
  end.

(** Events of the configuration write of [Init]. *)
Definition config_write_events (d : Dev) : list Event :=
  [EvLow (cs d)] ++ command_phase d configCommand ++
  map EvTransfer (BigEndian_PutUint32 initConfigValue) ++ [EvHigh (cs d)].

(** Events [Init] adds when the poll loop ran through [misses] and
    ended in [ending]. *)
Definition Init_events (d : Dev) (misses : list (list Z))
    (ending : poll_ending) : list Event :=
  bringup_events d ++ misses_events d misses ++ ending_events d ending ++
  match ending with
  | PollSeen _ => config_write_events d
  | _ => []
  end.

Definition Init_dev (d : Dev) (ending : poll_ending) : Dev :=
  match ending with
  | PollSeen _ => dev_after_write FuncAllSPIRegisters 0 initConfigValue 4 d
  | _ => d
  end.

(** Command words clocked out in a trace: the four bytes that follow
    each switch of the data line to output, read little-endian. *)
Fixpoint bus_commands (tr : list Event) : list Z :=
  match tr with
  | EvConfigure _ PinOutput ::
      ((EvTransfer b0 :: EvTransfer b1 :: EvTransfer b2 :: EvTransfer b3 :: _)
         as tr') =>
      LittleEndian_Uint32 [b0; b1; b2; b3] :: bus_commands tr'
  | _ :: tr' => bus_commands tr'
  | [] => []
  end.

(* ===================================================================== *)
(** ** Further functions of [cy43439.go] *)

(** [NewDev]. [machine.NoPin] belongs to the machine package and is a
    parameter; the [irq] argument is not stored, and the bookkeeping
    fields and [buf] start at their zero values. *)
Definition NewDev (NoPin : Z) (cs wlRegOn irq sharedSD : Z) : Dev :=
  let SD := if sharedDATA && negb (sharedSD =? NoPin) then sharedSD else NoPin in
  mkDev 0 (0, 0) 0 0 cs wlRegOn 0 SD (repeat 0 (2000 / 4)).

(** [writeU16LittleEndian]: two [spi.Transfer] calls, always [nil]. *)
Definition writeU16LittleEndian (v : Z) : M (option error) :=
  emit (EvTransfer (U32.to_byte v));;
  emit (EvTransfer (U32.to_byte (U32.shr v 8)));;
  ret None.

(** [for _, v := range w { d.writeU16LittleEndian(v) }] *)
Fixpoint write_halfwords (w : list Z) : M unit :=
  match w with
  | [] => ret tt
  | v :: w' => _ <- writeU16LittleEndian v;; write_halfwords w'
  end.

(** [spiWrite16]; [uint16(x)] is [x mod 2^16]. *)
Definition spiWrite16 (command : Z) (w : list Z) : M (option error) :=
  d <- get_dev;;
  (if sharedDATA then emit (EvConfigure (sharedSD d) PinOutput) else ret tt);;
  _ <- writeU16LittleEndian (command mod 2 ^ 16);;
  err <- writeU16LittleEndian (U32.shr command 16 mod 2 ^ 16);;
  if (Nat.eqb (length w) 0) || is_err err then ret err
  else write_halfwords w;; ret None.

(** [SPIWrite32]: the word slice is re-sliced to its first [len(w)/4]
    words; [&w[0]] is evaluated after [d.cs.Low()]. *)
Definition SPIWrite32 (command : Z) (w : list Z) : M (option error) :=
  if negb (Nat.eqb (Nat.modulo (length w) 4) 0)
  then ret (Some (ErrorsNew "length of buffer must be multiple of 4"))
  else
    d <- get_dev;;
    emit (EvLow (cs d));;
    match w with
    | [] => panic "index out of range [0] with length 0"
    | _ :: _ =>
        err <- spiWrite32 command (firstn (Nat.div (length w) 4) w);;
        emit (EvHigh (cs d));;
        ret err
    end.

(* ===================================================================== *)
(** ** Status word, function names and firmware validation
       (the firmware helper file) *)

(** [type Status uint32] and its accessors. *)
Module Status.

Definition DataUnavailable (s : Z) : bool := negb (Z.land s 1 =? 0).
Definition IsUnderflow (s : Z) : bool := negb (Z.land s (U32.shl 1 1) =? 0).
Definition IsOverflow (s : Z) : bool := negb (Z.land s (U32.shl 1 2) =? 0).
Definition F2Interrupt (s : Z) : bool := negb (Z.land s (U32.shl 1 3) =? 0).
Definition F2RxReady (s : Z) : bool := negb (Z.land s (U32.shl 1 5) =? 0).
Definition F3RxReady (s : Z) : bool := negb (Z.land s 0x40 =? 0).
Definition HostCommandDataError (s : Z) : bool := negb (Z.land s 0x80 =? 0).
Definition GSPIPacketAvailable (s : Z) : bool := negb (Z.land s 0x0100 =? 0).
Definition F2PacketAvailable (s : Z) : bool := negb (Z.land s (U32.shl 1 8) =? 0).
Definition F3PacketAvailable (s : Z) : bool := negb (Z.land s 0x00100000 =? 0).

(** [uint16(s>>9) & mask] with [mask = 1<<11 - 1]. *)
Definition F2PacketLength (s : Z) : Z :=
  Z.land (U32.shr s 9 mod 2 ^ 16) (Z.shiftl 1 11 - 1).

(** [uint16(s>>21) & mask] *)
Definition F3PacketLength (s : Z) : Z :=
  Z.land (U32.shr s 21 mod 2 ^ 16) (Z.shiftl 1 11 - 1).

(** One [if cond { str += word }] step. *)
Definition add_if (cond : bool) (word : string) (str : string) : string :=
  if cond then String.append str word else str.

(** [Status.String] *)
Definition String (s : Z) : string :=
  if s =? 0 then "no status"
  else
    let str := "" in
    let str := add_if (HostCommandDataError s) "hostcmderr " str in
    let str := add_if (DataUnavailable s) "dataunavailable " str in
    let str := add_if (IsOverflow s) "overflow " str in
    let str := add_if (IsUnderflow s) "underflow " str in
    let str := add_if (F2PacketAvailable s || F3PacketAvailable s)
                 "packetavail " str in
    let str := add_if (F2RxReady s || F3RxReady s) "rxready " str in
    str.

(** Bits the summary reports: 0, 1, 2, 5, 6, 7, 8 and 20. *)
Definition reported_mask : Z := 0x1001E7.

End Status.

(** [Function.String] of the firmware helper file, whose names for the
    four values are [FuncBus], [FuncBackplane], [FuncWLAN] (= [FuncDMA1])
    and [FuncDMA2]. *)
Definition Function_String (f : Function) : string :=
  if f =? 0 then "bus"
  else if f =? 1 then "backplane"
  else if f =? 2 then "wlan"
  else if f =? 3 then "dma2"
  else "unknown".

(** [validateFirmware]. *)
Module Firmware.

(** [[]byte("Version: ")] *)
Definition cmpString : list Z := [86; 101; 114; 115; 105; 111; 110; 58; 32].

(** [bytes.Equal] *)
Fixpoint bytes_Equal (a b : list Z) : bool :=
  match a, b with
  | [], [] => true
  | x :: a', y :: b' => (x =? y) && bytes_Equal a' b'
  | _, _ => false
  end.

(** [b[lo:hi]] on the 800-byte tail; [None] is the slice-bounds panic.
    The tail's capacity is at least its length, and the bound used here
    is the length. *)
Definition sub (b : list Z) (lo hi : Z) : option (list Z) :=
  if (0 <=? lo) && (lo <=? hi) && (hi <=? Z.of_nat (length b))
  then Some (firstn (Z.to_nat (hi - lo)) (skipn (Z.to_nat lo) b))
  else None.

(** [b[i]]; [None] is the index panic. *)
Definition index (b : list Z) (i : Z) : option Z :=
  if (0 <=? i) then nth_error b (Z.to_nat i) else None.

(** What the call does: it returns an error value or [nil], after
    handing [Debug] the version bytes, or it panics. *)
Inductive verdict : Type :=
| Returned (err : option error) (debug : option (list Z))
| Panics.

(** The search loop
    [for i := 80; i < int(trailLen); i++ { ... found = i; break }]
    started at [i] with [n] turns left; the result is [found]. *)
Fixpoint search (b : list Z) (fwEnd i : Z) (n : nat) : option Z :=
  match n with
  | O => Some (-1)
  | S n' =>
      let ptr := fwEnd - 3 - i in
      match sub b ptr (ptr + 9) with
      | None => None
      | Some window =>
          if bytes_Equal window cmpString then Some i
          else search b fwEnd (i + 1) n'
      end
  end.

(** The scan [for ; b[ptrstart+i] != 0; i++ {}] over the bytes from
    [ptrstart] on; the result is the final [i], [None] the index panic
    at the end of the buffer. *)
Fixpoint scan (l : list Z) : option Z :=
  match l with
  | [] => None
  | x :: l' => if x =? 0 then Some 0 else option_map Z.succ (scan l')
  end.

Definition verbose_debug : bool := true.

Definition validateFirmware (src : list Z) : verdict :=
  let fwEnd := 800 in
  if fwEnd >? Z.of_nat (length src)
  then Returned (Some (ErrorsNew "bad firmware size: too small")) None
  else
    let b := skipn (Z.to_nat (Z.of_nat (length src) - fwEnd)) src in
    let fwEnd := fwEnd - 16 in
    match index b (fwEnd - 2), index b (fwEnd - 1), index b (fwEnd - 3) with
    | Some lo, Some hi, Some nul =>
        let trailLen := Z.lor lo (U32.shl hi 8) in
        let found :=
          if (trailLen <? 500) && (nul =? 0)
          then search b fwEnd 80 (Z.to_nat (trailLen - 80))
          else Some (-1) in
        match found with
        | None => Panics
        | Some found =>
            if found =? -1
            then Returned (Some (ErrorsNew "could not find valid firmware")) None
            else if verbose_debug then
              let ptrstart := fwEnd - 3 - found in
              match scan (skipn (Z.to_nat ptrstart) b) with
              | None => Panics
              | Some i =>
                  match sub b ptrstart (ptrstart + i - 1) with
                  | None => Panics
                  | Some version => Returned None (Some version)
                  end
              end
            else Returned None None
        end
    | _, _, _ => Panics
    end.

End Firmware.

(** Notions used to state what [validateFirmware] accepts. *)
Module FirmwareSpec.

(** The last 800 bytes of the image. *)
Definition tail (src : list Z) : list Z := skipn (length src - 800) src.

(** The 16-bit little-endian trailer length at offsets 782 and 783 of
    the tail. *)
Definition trailLen (b : list Z) : Z :=
  Z.lor (nth 782 b 0) (U32.shl (nth 783 b 0) 8).

(** The nine bytes that start [i] bytes before offset 781 of the tail. *)
Definition window (b : list Z) (i : Z) : list Z :=
  firstn 9 (skipn (Z.to_nat (781 - i)) b).

(** The version marker sits [i] bytes before offset 781, with [i] inside
    the searched range. *)
Definition marker_at (b : list Z) (i : Z) : Prop :=
  80 <= i < trailLen b /\ window b i = Firmware.cmpString.

(** [n] bytes of the tail from the marker position on. *)
Definition version (b : list Z) (i : Z) (n : nat) : list Z :=
  firstn n (skipn (Z.to_nat (781 - i)) b).

(** What an accepted image looks like: the trailer length is below 500,
    offset 781 holds zero, [i] is the least marker position, and the
    [n] version bytes are followed by one more non-zero byte and then
    the first zero. *)
Definition accepted (b : list Z) (i : Z) (n : nat) : Prop :=
  trailLen b < 500 /\ nth 781 b 0 = 0 /\
  marker_at b i /\
  (forall j, 80 <= j < i -> window b j <> Firmware.cmpString) /\
  (8 <= n)%nat /\ Z.of_nat n < i /\
  ~ In 0 (version b i (S n)) /\
  nth (Z.to_nat (781 - i) + S n) b 1 = 0.

(** A sample 800-byte tail: "Version: 7.95", a line feed and a zero at
    offset 691 (90 bytes before offset 781), trailer length 100. *)
Definition sample : list Z :=
  repeat 1 691 ++
  [86; 101; 114; 115; 105; 111; 110; 58; 32; 55; 46; 57; 53; 10; 0] ++
  repeat 1 75 ++ [0; 100; 0] ++ repeat 9 16.

Definition tooSmall : Firmware.verdict :=
  Firmware.Returned (Some (ErrorsNew "bad firmware size: too small")) None.
Definition notFound : Firmware.verdict :=
  Firmware.Returned (Some (ErrorsNew "could not find valid firmware")) None.

End FirmwareSpec.

(* ===================================================================== *)
(** * Lemmas *)

(** ** Machine integers *)

Lemma wrap_range z : U32.in_range (U32.wrap z).
Proof. unfold U32.in_range, U32.wrap. apply Z.mod_pos_bound. lia. Qed.

Lemma wrap_small z : U32.in_range z -> U32.wrap z = z.
Proof. unfold U32.in_range, U32.wrap. intros. apply Z.mod_small. assumption. Qed.

(* --------------------------------------------------------------------- *)
(** *** Bit-level lemmas on the command word *)

Lemma testbit_b2u32 b i : Z.testbit (b2u32 b) i = (i =? 0) && b.
Proof.
  destruct b; cbn [b2u32].
  - destruct i as [|p|p]; reflexivity.
  - rewrite Z.testbit_0_l, andb_false_r. reflexivity.
Qed.

Lemma make_cmd_testbit write inc fn addr sz i :
  0 <= i ->
  Z.testbit (make_cmd write inc fn addr sz) i =
    ((i =? 31) && write)
    || ((i =? 30) && inc)
    || ((28 <=? i) && (i <? 32) && Z.testbit fn (i - 28))
    || ((11 <=? i) && (i <? 28) && Z.testbit addr (i - 11))
    || Z.testbit sz i.
Proof.
  intros Hi. unfold make_cmd, U32.shl, U32.wrap.
  rewrite !Z.lor_spec.
  rewrite !Z.testbit_mod_pow2 by lia.
  rewrite !Z.shiftl_spec by lia.
  rewrite Z.land_spec, !testbit_b2u32.
  change 0x1ffff with (Z.ones 17).
  destruct (Z.ltb_spec i 32), (Z.eqb_spec i 31), (Z.eqb_spec i 30),
    (Z.leb_spec 28 i), (Z.leb_spec 11 i), (Z.ltb_spec i 28),
    (Z.eqb_spec (i - 31) 0), (Z.eqb_spec (i - 30) 0); try lia;
    cbn [andb orb];
    rewrite ?andb_false_r, ?andb_true_r, ?orb_false_r;
    try reflexivity.
  all: try (rewrite (Z.testbit_neg_r _ (i - 28)) by lia).
  all: try (rewrite (Z.testbit_neg_r _ (i - 11)) by lia).
  all: try (rewrite Z.testbit_ones_nonneg by lia).
  all: try (destruct (Z.ltb_spec (i - 11) 17); try lia).
  all: cbn [andb orb]; rewrite ?andb_false_r, ?andb_true_r, ?orb_false_r;
    try reflexivity.
Qed.

Lemma testbit_above x k i :
  0 <= x < 2 ^ k -> k <= i -> Z.testbit x i = false.
Proof.
  intros Hx Hk.
  destruct (Z.ltb_spec k 0) as [Hneg|Hnn].
  - rewrite Z.pow_neg_r in Hx by assumption. lia.
  - rewrite <- (Z.mod_small x (2 ^ k)) by assumption.
    apply Z.mod_pow2_bits_high. lia.
Qed.

(** Case analysis on every integer comparison of the goal. *)
Ltac cmp_cases :=
  repeat match goal with
         | |- context [?a <? ?b] => destruct (Z.ltb_spec a b)
         | |- context [?a <=? ?b] => destruct (Z.leb_spec a b)
         | |- context [?a =? ?b] => destruct (Z.eqb_spec a b)
         end.

(** Right-nested normal form of a trace expression. *)
Ltac norm_trace :=
  repeat first [ rewrite <- app_assoc | rewrite app_nil_r
               | progress cbn [app] ].

Ltac bool_norm :=
  cbn [andb orb negb];
  rewrite ?andb_false_r, ?andb_true_r, ?orb_false_r, ?orb_true_r,
    ?andb_false_l, ?orb_false_l.

Section CodecFields.
Variables (write inc : bool) (fn addr sz : Z).
Hypothesis Hfn : 0 <= fn < 4.
Hypothesis Haddr : 0 <= addr < 2 ^ 17.
Hypothesis Hsz : 0 <= sz < 2 ^ 11.

Let c := make_cmd write inc fn addr sz.

Lemma make_cmd_bit_hi i :
  28 <= i ->
  Z.testbit c i =
    ((i =? 31) && write) || ((i =? 30) && inc)
    || ((i <? 30) && Z.testbit fn (i - 28)).
Proof.
  intros Hi. unfold c. rewrite make_cmd_testbit by lia.
  rewrite (testbit_above sz 11 i) by (assumption || lia).
  cmp_cases; try lia; bool_norm; try reflexivity.
  all: rewrite (testbit_above fn 2) by (change (2 ^ 2) with 4; lia).
  all: bool_norm; reflexivity.
Qed.

Lemma make_cmd_write : Cmd.write c = write.
Proof.
  unfold Cmd.write. rewrite make_cmd_bit_hi by lia.
  change (31 =? 31) with true. change (31 =? 30) with false.
  change (31 <? 30) with false. bool_norm. reflexivity.
Qed.

Lemma make_cmd_inc : Cmd.inc c = inc.
Proof.
  unfold Cmd.inc. rewrite make_cmd_bit_hi by lia.
  change (30 =? 31) with false. change (30 =? 30) with true.
  change (30 <? 30) with false. bool_norm. reflexivity.
Qed.

Lemma make_cmd_fn : Cmd.fn c = fn.
Proof.
  unfold Cmd.fn. apply Z.bits_inj'. intros i Hi.
  change 3 with (Z.ones 2).
  rewrite Z.land_spec, Z.shiftr_spec, Z.testbit_ones_nonneg by lia.
  rewrite make_cmd_bit_hi by lia.
  replace (i + 28 - 28) with i by lia.
  cmp_cases; try lia; bool_norm; try reflexivity.
  all: symmetry; apply (testbit_above fn 2); [change (2 ^ 2) with 4|]; lia.
Qed.

Lemma make_cmd_addr : Cmd.addr c = addr.
Proof.
  unfold Cmd.addr, c. apply Z.bits_inj'. intros i Hi.
  change 0x1ffff with (Z.ones 17).
  rewrite Z.land_spec, Z.shiftr_spec, Z.testbit_ones_nonneg by lia.
  rewrite make_cmd_testbit by lia.
  replace (i + 11 - 11) with i by lia.
  rewrite (testbit_above sz 11 (i + 11)) by (assumption || lia).
  cmp_cases; try lia; bool_norm; try reflexivity.
  all: try (rewrite (testbit_above addr 17 i) by (assumption || lia)).
  all: try (rewrite (Z.testbit_neg_r fn) by lia).
  all: bool_norm; try reflexivity.
Qed.

Lemma make_cmd_size : Cmd.size c = sz.
Proof.
  unfold Cmd.size, c. apply Z.bits_inj'. intros i Hi.
  change 0x7ff with (Z.ones 11).
  rewrite Z.land_spec, Z.testbit_ones_nonneg by lia.
  rewrite make_cmd_testbit by lia.
  cmp_cases; try lia; bool_norm; try reflexivity.
  all: symmetry; apply (testbit_above sz 11); assumption || lia.
Qed.

End CodecFields.

Lemma make_cmd_range write inc fn addr sz :
  U32.in_range sz -> U32.in_range (make_cmd write inc fn addr sz).
Proof.
  intros Hsz. unfold make_cmd, U32.shl.
  assert (Hlor : forall a b, U32.in_range a -> U32.in_range b ->
                             U32.in_range (Z.lor a b)).
  { unfold U32.in_range. intros a b [Ha0 Ha] [Hb0 Hb]. split.
    - apply Z.lor_nonneg. split; assumption.
    - destruct (Z.eq_dec (Z.lor a b) 0) as [->|Hne]; [lia|].
      apply Z.log2_lt_pow2; [pose proof (Z.lor_nonneg a b); lia|].
      rewrite Z.log2_lor by assumption.
      apply Z.max_lub_lt.
      + destruct (Z.eq_dec a 0) as [->|]; [cbn; lia|].
        apply Z.log2_lt_pow2; lia.
      + destruct (Z.eq_dec b 0) as [->|]; [cbn; lia|].
        apply Z.log2_lt_pow2; lia. }
  repeat apply Hlor; try apply wrap_range. assumption.
Qed.

(** ** Byte order *)

Lemma to_byte_range x : 0 <= U32.to_byte x < 256.
Proof. unfold U32.to_byte. change (2 ^ 8) with 256. apply Z.mod_pos_bound. lia. Qed.

Lemma testbit_to_byte x i :
  0 <= i -> Z.testbit (U32.to_byte x) i = (i <? 8) && Z.testbit x i.
Proof.
  intros Hi. unfold U32.to_byte.
  destruct (Z.ltb_spec i 8).
  - rewrite Z.mod_pow2_bits_low by lia. reflexivity.
  - rewrite Z.mod_pow2_bits_high by lia. reflexivity.
Qed.

Lemma LittleEndian_Uint32_testbit b0 b1 b2 b3 i :
  0 <= i ->
  Z.testbit (LittleEndian_Uint32 [b0; b1; b2; b3]) i =
    Z.testbit b0 i
    || ((i <? 32) && Z.testbit b1 (i - 8))
    || ((i <? 32) && Z.testbit b2 (i - 16))
    || ((i <? 32) && Z.testbit b3 (i - 24)).
Proof.
  intros Hi. unfold LittleEndian_Uint32, U32.shl, U32.wrap. cbn [nth].
  rewrite !Z.lor_spec, !Z.testbit_mod_pow2, !Z.shiftl_spec by lia.
  reflexivity.
Qed.

(** Reading the bytes [writeU32LittleEndian] sends gives the word back. *)
Lemma LittleEndian_le_bytes v :
  U32.in_range v -> LittleEndian_Uint32 (le_bytes v) = v.
Proof.
  intros Hv. unfold le_bytes. apply Z.bits_inj'. intros i Hi.
  rewrite LittleEndian_Uint32_testbit by assumption.
  destruct (Z.ltb_spec i 32) as [Hlt|Hge].
  - destruct (Z.ltb_spec i 8); [|destruct (Z.ltb_spec i 16);
      [|destruct (Z.ltb_spec i 24)]].
    all: repeat match goal with
           | |- context [Z.testbit (U32.to_byte ?x) ?j] =>
               first [ rewrite (Z.testbit_neg_r (U32.to_byte x) j) by lia
                     | rewrite (testbit_to_byte x j) by lia ]
           end.
    all: unfold U32.shr; rewrite ?Z.shiftr_spec by lia.
    all: cmp_cases; try lia; bool_norm;
      repeat match goal with
        | |- context [Z.testbit _ ?j] =>
            progress replace j with i by lia
        end; try reflexivity.
  - bool_norm. rewrite (testbit_above v 32 i) by (assumption || lia).
    rewrite testbit_to_byte by lia.
    destruct (Z.ltb_spec i 8); [lia|reflexivity].
Qed.

(** Sending a word read little-endian from four bytes sends the bytes. *)
Lemma le_bytes_LittleEndian b0 b1 b2 b3 :
  0 <= b0 < 256 -> 0 <= b1 < 256 -> 0 <= b2 < 256 -> 0 <= b3 < 256 ->
  le_bytes (LittleEndian_Uint32 [b0; b1; b2; b3]) = [b0; b1; b2; b3].
Proof.
  intros H0 H1 H2 H3. unfold le_bytes.
  assert (Hbit : forall b k i, 0 <= b < 256 -> 8 <= k -> 0 <= i ->
            Z.testbit b (i + k) = false).
  { intros b k i Hb Hk Hi. apply (testbit_above b 8); [assumption|lia]. }
  repeat f_equal; apply Z.bits_inj'; intros i Hi;
    rewrite testbit_to_byte by assumption;
    unfold U32.shr; rewrite ?Z.shiftr_spec by assumption;
    rewrite LittleEndian_Uint32_testbit by lia;
    (destruct (Z.ltb_spec i 8) as [Hlt|Hge];
     [| bool_norm; symmetry;
        first [ apply (testbit_above b0 8) | apply (testbit_above b1 8)
              | apply (testbit_above b2 8) | apply (testbit_above b3 8) ];
        (assumption || lia) ]).
  - rewrite (Z.testbit_neg_r b1), (Z.testbit_neg_r b2), (Z.testbit_neg_r b3)
      by lia. bool_norm. reflexivity.
  - replace (i + 8 - 8) with i by lia.
    rewrite (testbit_above b0 8 (i + 8)) by (assumption || lia).
    rewrite (Z.testbit_neg_r b2), (Z.testbit_neg_r b3) by lia.
    cmp_cases; try lia; bool_norm; reflexivity.
  - replace (i + 16 - 16) with i by lia.
    rewrite (testbit_above b0 8 (i + 16)) by (assumption || lia).
    rewrite (testbit_above b1 8 (i + 16 - 8)) by (assumption || lia).
    rewrite (Z.testbit_neg_r b3) by lia.
    cmp_cases; try lia; bool_norm; reflexivity.
  - replace (i + 24 - 24) with i by lia.
    rewrite (testbit_above b0 8 (i + 24)) by (assumption || lia).
    rewrite (testbit_above b1 8 (i + 24 - 8)) by (assumption || lia).
    rewrite (testbit_above b2 8 (i + 24 - 16)) by (assumption || lia).
    cmp_cases; try lia; bool_norm; reflexivity.
Qed.

(** ** Running the bus exchanges *)

Section DriverFacts.

Variable env : Env.

Lemma writeU32LittleEndian_run v s :
  writeU32LittleEndian v s =
    Ret None (mkState (st_dev s) (st_trace s ++ map EvTransfer (le_bytes v))).
Proof.
  unfold writeU32LittleEndian, bind, emit, ret. cbn.
  rewrite <- !app_assoc. reflexivity.
Qed.

Lemma write_words_run w s :
  write_words w s =
    Ret tt (mkState (st_dev s)
              (st_trace s ++ map EvTransfer (concat (map le_bytes w)))).
Proof.
  revert s. induction w as [|v w IH]; intros s.
  - cbn. unfold ret. rewrite app_nil_r. destruct s; reflexivity.
  - cbn [write_words]. unfold bind at 1.
    rewrite writeU32LittleEndian_run, IH. cbn [st_dev st_trace map concat].
    rewrite map_app, <- app_assoc. reflexivity.
Qed.

(** [spiWrite32] always returns [nil]. *)
Lemma spiWrite32_run command w s :
  spiWrite32 command w s =
    Ret None (mkState (st_dev s)
                (st_trace s ++ command_phase (st_dev s) command ++
                 map EvTransfer (concat (map le_bytes w)))).
Proof.
  unfold spiWrite32, bind, get_dev, sharedDATA, emit.
  rewrite writeU32LittleEndian_run. cbn [st_dev st_trace is_err orb].
  rewrite orb_false_r. unfold command_phase.
  destruct w as [|v w].
  - cbn [length Nat.eqb map concat]. unfold ret.
    rewrite app_nil_r, <- app_assoc. reflexivity.
  - cbn [length Nat.eqb]. rewrite write_words_run. cbn [st_dev st_trace].
    unfold ret. rewrite <- !app_assoc. reflexivity.
Qed.

Lemma responseDelay_run s : responseDelay s = Ret tt s.
Proof. reflexivity. Qed.

Lemma SPIRead_run command r s :
  let d := st_dev s in
  let reply := env_Tx env (st_trace s ++ read_request d command) (length r) in
  SPIRead env command r s =
    Ret (fill r (fst reply), snd reply)
        (mkState d (st_trace s ++
                    read_exchange d command (length r) (fill r (fst reply))
                      (snd reply))).
Proof.
  cbv zeta. unfold SPIRead, bind, get_dev, emit.
  rewrite spiWrite32_run. cbn [st_dev st_trace map concat].
  unfold sharedDATA, emit. rewrite responseDelay_run. cbn [st_dev st_trace].
  unfold spi_Tx_nil, bind, get_trace, emit, ret. cbn [st_dev st_trace fst snd].
  unfold read_request, read_exchange. norm_trace. reflexivity.
Qed.

Lemma SPIWriteRead_run command r s :
  let d := st_dev s in
  let pre := st_trace s ++ [EvLow (cs d)] ++ command_phase d command ++
             [EvConfigure (sharedSD d) PinInputPulldown] in
  let reply := env_Tx env pre (length r) in
  SPIWriteRead env command r s =
    Ret (fill r (fst reply), snd reply)
        (mkState d (pre ++ [EvTx (length r) (fill r (fst reply)) (snd reply);
                            EvHigh (cs d)])).
Proof.
  cbv zeta. unfold SPIWriteRead, bind, get_dev, emit.
  rewrite spiWrite32_run. cbn [st_dev st_trace map concat].
  unfold sharedDATA, emit. rewrite responseDelay_run. cbn [st_dev st_trace].
  unfold spi_Tx_nil, bind, get_trace, emit, ret. cbn [st_dev st_trace fst snd].
  norm_trace. reflexivity.
Qed.

Lemma SPIWrite_run command b w s :
  let d := st_dev s in
  SPIWrite command (b :: w) s =
    Ret None
        (mkState d (st_trace s ++
                    write_exchange d command
                      (unsafe_Slice_u32 (b :: w) (Nat.div (length (b :: w)) 4)))).
Proof.
  cbv zeta. unfold SPIWrite, bind, get_dev, emit.
  rewrite spiWrite32_run. cbn [st_dev st_trace]. unfold ret.
  unfold write_exchange. rewrite <- !app_assoc. reflexivity.
Qed.

Lemma SPIWrite_nil command s :
  SPIWrite command [] s =
    Panic "index out of range [0] with length 0"
          (mkState (st_dev s) (st_trace s ++ [EvLow (cs (st_dev s))])).
Proof. reflexivity. Qed.

End DriverFacts.

(** ** Buffers *)

Lemma fill_length r reply : length (fill r reply) = length r.
Proof.
  unfold fill. rewrite firstn_length_le; [reflexivity|].
  rewrite length_app, length_map, length_skipn. lia.
Qed.

Lemma Forall_firstn_byte n (l : list Z) :
  Forall is_byte l -> Forall is_byte (firstn n l).
Proof.
  intros H. revert n. induction H; intros [|n]; cbn; constructor; auto.
Qed.

Lemma Forall_skipn_byte n (l : list Z) :
  Forall is_byte l -> Forall is_byte (skipn n l).
Proof.
  intros H. revert n. induction H; intros [|n]; cbn; auto.
Qed.

Lemma fill_bytes r reply : Forall is_byte r -> Forall is_byte (fill r reply).
Proof.
  intros Hr. unfold fill. apply Forall_firstn_byte, Forall_app. split.
  - apply Forall_map, Forall_forall. intros x _. apply to_byte_range.
  - apply Forall_skipn_byte, Hr.
Qed.

Lemma firstn_app_short {A} n (l1 l2 : list A) :
  (n <= length l1)%nat -> firstn n (l1 ++ l2) = firstn n l1.
Proof.
  intros Hn. rewrite firstn_app.
  replace (n - length l1)%nat with O by lia.
  cbn [firstn]. apply app_nil_r.
Qed.

Lemma repeat_zero_bytes n : Forall is_byte (repeat 0 n).
Proof. induction n; cbn; constructor; [unfold is_byte; lia|assumption]. Qed.

Lemma lor_shiftl_add a b k :
  0 <= k -> 0 <= a < 2 ^ k -> Z.lor a (Z.shiftl b k) = a + b * 2 ^ k.
Proof.
  intros Hk Ha. rewrite <- Z.shiftl_mul_pow2 by assumption.
  rewrite <- Z.lxor_lor, Z.add_nocarry_lxor; try reflexivity.
  all: apply Z.bits_inj'; intros i Hi; rewrite Z.land_spec, Z.bits_0.
  all: destruct (Z.ltb_spec i k).
  all: try (rewrite (Z.shiftl_spec_low b k i) by lia; apply andb_false_r).
  all: rewrite (testbit_above a k i) by (assumption || lia); reflexivity.
Qed.

(** [binary.LittleEndian.Uint32] as a sum. *)
Lemma LittleEndian_Uint32_sum b0 b1 b2 b3 :
  is_byte b0 -> is_byte b1 -> is_byte b2 -> is_byte b3 ->
  LittleEndian_Uint32 [b0; b1; b2; b3] = le_uint [b0; b1; b2; b3].
Proof.
  unfold is_byte. intros H0 H1 H2 H3.
  unfold LittleEndian_Uint32, U32.shl, U32.wrap. cbn [nth le_uint].
  rewrite !Z.shiftl_mul_pow2 by lia.
  rewrite !Z.mod_small by lia.
  rewrite <- !Z.shiftl_mul_pow2 by lia.
  rewrite (lor_shiftl_add b0 b1 8) by lia.
  rewrite (lor_shiftl_add _ b2 16) by lia.
  rewrite (lor_shiftl_add _ b3 24) by lia. lia.
Qed.

Lemma le_uint_4_range b0 b1 b2 b3 :
  is_byte b0 -> is_byte b1 -> is_byte b2 -> is_byte b3 ->
  U32.in_range (le_uint [b0; b1; b2; b3]).
Proof. unfold is_byte, U32.in_range. cbn [le_uint]. lia. Qed.

Lemma le_uint_4_low8 b0 b1 b2 b3 :
  is_byte b0 -> le_uint [b0; b1; b2; b3] mod 2 ^ 8 = le_uint [b0].
Proof.
  unfold is_byte. intros H0. cbn [le_uint]. change (2 ^ 8) with 256.
  replace (b0 + 256 * (b1 + 256 * (b2 + 256 * (b3 + 256 * 0))))
    with (b0 + (b1 + 256 * b2 + 65536 * b3) * 256) by lia.
  rewrite Z.mod_add by lia. rewrite Z.mod_small by lia. lia.
Qed.

Lemma le_uint_4_low16 b0 b1 b2 b3 :
  is_byte b0 -> is_byte b1 ->
  le_uint [b0; b1; b2; b3] mod 2 ^ 16 = le_uint [b0; b1].
Proof.
  unfold is_byte. intros H0 H1. cbn [le_uint]. change (2 ^ 16) with 65536.
  replace (b0 + 256 * (b1 + 256 * (b2 + 256 * (b3 + 256 * 0))))
    with (b0 + 256 * b1 + (b2 + 256 * b3) * 65536) by lia.
  rewrite Z.mod_add by lia. rewrite Z.mod_small by lia. lia.
Qed.

(** ** Running the register accesses *)

Section RegisterFacts.

Variable env : Env.

Lemma read_padding_cases fn :
  (fn = backplaneFunction /\ read_padding fn = 4) \/
  (fn <> backplaneFunction /\ read_padding fn = 0).
Proof.
  unfold read_padding. destruct (Z.eqb_spec fn backplaneFunction); auto.
Qed.

Lemma readReg_run fn reg size s :
  let d := st_dev s in
  let cmd := readCommand fn reg size in
  let n := Z.to_nat (4 + read_padding fn) in
  let reply := env_Tx env (st_trace s ++ read_request d cmd) n in
  let r := fill (repeat 0 n) (fst reply) in
  readReg env fn reg size s =
    Ret (match snd reply with
         | Some e => (0, Some e)
         | None => (LittleEndian_Uint32 (firstn 4 r), None)
         end)
        (mkState d (st_trace s ++ read_exchange d cmd n r (snd reply))).
Proof.
  cbv zeta. unfold readReg, bind. rewrite SPIRead_run.
  fold (read_padding fn). fold (readCommand fn reg size).
  cbn [fst snd st_dev st_trace].
  assert (Hbuf : firstn (Z.to_nat (4 + read_padding fn))
                   (repeat 0 (Z.to_nat (4 + whdBusSPIBackplaneReadPadding)))
                 = repeat 0 (Z.to_nat (4 + read_padding fn))).
  { destruct (read_padding_cases fn) as [[_ ->]|[_ ->]]; reflexivity. }
  rewrite Hbuf, repeat_length.
  destruct (snd (env_Tx env _ _)) as [e|]; [reflexivity|].
  unfold ret. rewrite firstn_app_short; [reflexivity|].
  rewrite fill_length, repeat_length.
  destruct (read_padding_cases fn) as [[_ ->]|[_ ->]]; cbn; lia.
Qed.

(** Bytes of the read buffer after the exchange. *)
Lemma read_buffer_shape fn reply :
  let r := fill (repeat 0 (Z.to_nat (4 + read_padding fn))) reply in
  exists b0 b1 b2 b3 rest,
    r = b0 :: b1 :: b2 :: b3 :: rest /\
    is_byte b0 /\ is_byte b1 /\ is_byte b2 /\ is_byte b3 /\
    length rest = Z.to_nat (read_padding fn).
Proof.
  cbv zeta.
  pose proof (fill_length (repeat 0 (Z.to_nat (4 + read_padding fn))) reply)
    as Hlen.
  pose proof (fill_bytes (repeat 0 (Z.to_nat (4 + read_padding fn))) reply
                (repeat_zero_bytes _)) as Hb.
  rewrite repeat_length in Hlen.
  destruct (fill _ reply) as [|b0 [|b1 [|b2 [|b3 rest]]]];
    try (exfalso; destruct (read_padding_cases fn) as [[_ Hp]|[_ Hp]];
         rewrite Hp in Hlen; cbn in Hlen; lia).
  exists b0, b1, b2, b3, rest.
  repeat match goal with
         | H : Forall _ (_ :: _) |- _ => inversion H; subst; clear H
         end.
  repeat split; try assumption; try (apply H1 || apply H2 || apply H3 || apply H4).
  destruct (read_padding_cases fn) as [[_ Hp]|[_ Hp]];
    rewrite Hp in Hlen |- *; cbn in Hlen |- *; lia.
Qed.

Lemma writeReg_run fn reg val size s :
  size <= 4 ->
  writeReg fn reg val size s =
    SPIWrite (writeCommand fn reg size)
      (firstn (Z.to_nat size) (BigEndian_PutUint32 val))
      (mkState (dev_after_write fn reg val size (st_dev s)) (st_trace s)).
Proof.
  intros Hsize. unfold writeReg, bind, dev_after_write.
  fold (writeCommand fn reg size).
  destruct (Z.gtb_spec size 4) as [Hgt|_]; [lia|].
  destruct (fn =? backplaneFunction).
  - reflexivity.
  - unfold ret. destruct s; reflexivity.
Qed.

Lemma writeReg_oversize fn reg val size s :
  4 < size ->
  writeReg fn reg val size s =
    Panic "slice bounds out of range"
      (mkState (dev_after_write fn reg val size (st_dev s)) (st_trace s)).
Proof.
  intros Hsize. unfold writeReg, bind, dev_after_write.
  fold (writeCommand fn reg size).
  destruct (Z.gtb_spec size 4) as [_|Hle]; [|lia].
  destruct (fn =? backplaneFunction).
  - reflexivity.
  - unfold ret, panic. destruct s; reflexivity.
Qed.

Lemma dev_after_write_pins fn reg val size d :
  cs (dev_after_write fn reg val size d) = cs d /\
  sharedSD (dev_after_write fn reg val size d) = sharedSD d /\
  wlRegOn (dev_after_write fn reg val size d) = wlRegOn d.
Proof. unfold dev_after_write. destruct (fn =? backplaneFunction); auto. Qed.

End RegisterFacts.

Lemma to_byte_shr v k :
  0 <= k -> U32.to_byte (U32.shr v k) = (v / 2 ^ k) mod 256.
Proof.
  intros Hk. unfold U32.to_byte, U32.shr.
  rewrite Z.shiftr_div_pow2 by assumption. reflexivity.
Qed.

Lemma BigEndian_PutUint32_bytes v : Forall is_byte (BigEndian_PutUint32 v).
Proof. unfold BigEndian_PutUint32. repeat constructor; apply to_byte_range. Qed.

(** The read path's decoder applied to the bytes the write path
    serializes reverses the byte order. *)
Lemma LittleEndian_of_BigEndian v :
  LittleEndian_Uint32 (BigEndian_PutUint32 v) = bswap32 v.
Proof.
  unfold BigEndian_PutUint32.
  rewrite LittleEndian_Uint32_sum by apply to_byte_range.
  rewrite !to_byte_shr by lia. unfold U32.to_byte, bswap32. cbn [le_uint].
  change (2 ^ 8) with 256. lia.
Qed.

(** The four bytes of the write path, read big-endian, are the value. *)
Lemma be_uint_BigEndian v :
  U32.in_range v -> be_uint (BigEndian_PutUint32 v) = v.
Proof.
  intros Hv. unfold be_uint, BigEndian_PutUint32. cbn [rev app].
  rewrite <- LittleEndian_Uint32_sum by apply to_byte_range.
  apply (LittleEndian_le_bytes v Hv).
Qed.

Lemma last_event_snoc tr e : last_event (tr ++ [e]) = Some e.
Proof. unfold last_event. rewrite rev_unit. reflexivity. Qed.

Lemma last_event_app_r tr l e :
  last_event l = Some e -> last_event (tr ++ l) = Some e.
Proof.
  unfold last_event. rewrite rev_app_distr.
  destruct (rev l); [discriminate|]. intros H. exact H.
Qed.

Lemma readCommand_small fn reg size :
  0 <= size <= 4 ->
  readCommand fn reg size = make_cmd false true fn reg (size + read_padding fn).
Proof.
  intros Hsize. unfold readCommand, U32.add, U32.wrap.
  rewrite (Z.mod_small size) by lia.
  destruct (read_padding_cases fn) as [[_ ->]|[_ ->]];
    rewrite Z.mod_small by lia; reflexivity.
Qed.

Lemma read_command_size fn reg size :
  0 <= size <= 4 ->
  Cmd.size (make_cmd false true fn reg (size + read_padding fn))
  = size + read_padding fn.
Proof.
  intros Hsize. apply make_cmd_size.
  destruct (read_padding_cases fn) as [[_ ->]|[_ ->]]; lia.
Qed.

Lemma register_read_run env fn reg size s :
  size = 1 \/ size = 2 \/ size = 4 ->
  let d := st_dev s in
  let cmd := make_cmd false true fn reg (size + read_padding fn) in
  let n := Z.to_nat (4 + read_padding fn) in
  let reply := env_Tx env (st_trace s ++ read_request d cmd) n in
  let r := fill (repeat 0 n) (fst reply) in
  let s' := mkState d (st_trace s ++ read_exchange d cmd n r (snd reply)) in
  length r = n /\ Forall is_byte r /\
  readReg env fn reg size s = Ret (read_value 4 r (snd reply)) s' /\
  sized_read env size fn reg s
  = Ret (read_value (Z.to_nat size) r (snd reply)) s'.
Proof.
  intros Hsize. cbv zeta.
  rewrite <- readCommand_small by lia.
  split; [rewrite fill_length; apply repeat_length|].
  split; [apply fill_bytes, repeat_zero_bytes|].
  assert (Hread := readReg_run env fn reg size s). cbv zeta in Hread.
  destruct (read_buffer_shape fn
              (fst (env_Tx env (st_trace s ++
                      read_request (st_dev s) (readCommand fn reg size))
                      (Z.to_nat (4 + read_padding fn)))))
    as (b0 & b1 & b2 & b3 & rest & Hr & H0 & H1 & H2 & H3 & _).
  rewrite Hr in Hread |- *. cbn [firstn] in Hread.
  rewrite LittleEndian_Uint32_sum in Hread by assumption.
  split.
  - rewrite Hread. unfold read_value. destruct (snd _); reflexivity.
  - unfold sized_read, RegisterReadUint8, RegisterReadUint16,
      RegisterReadUint32, bind, ret.
    destruct Hsize as [->|[->| ->]]; cbn [Z.eqb Pos.eqb];
      rewrite Hread; unfold read_value; destruct (snd _);
      cbn [fst snd Z.to_nat Pos.to_nat Pos.iter_op Init.Nat.add firstn];
      try reflexivity; do 2 f_equal.
    + apply le_uint_4_low8; assumption.
    + apply le_uint_4_low16; assumption.
    + apply wrap_small, le_uint_4_range; assumption.
Qed.

(* ===================================================================== *)
(** * Command codec: field round trip and address truncation *)

(** C4. For all flags and all in-range fields (function below 4, address
    below 2^17, size below 2^11), reading bit 31, bit 30, bits 28-29,
    bits 11-27 and bits 0-10 of [make_cmd write inc fn addr sz] gives
    back exactly (write, inc, fn, addr, sz). *)
Theorem make_cmd_decode (write inc : bool) (fn addr sz : Z) :
  0 <= fn < 4 -> 0 <= addr < 2 ^ 17 -> 0 <= sz < 2 ^ 11 ->
  Cmd.decode (make_cmd write inc fn addr sz) = (write, inc, fn, addr, sz).
Proof.
  intros Hfn Haddr Hsz. unfold Cmd.decode.
  rewrite make_cmd_write, make_cmd_inc, make_cmd_fn, make_cmd_addr,
    make_cmd_size by assumption.
  reflexivity.
Qed.

Lemma make_cmd_decode_witness :
  0 <= 1 < 4 /\ 0 <= 0x1400 < 2 ^ 17 /\ 0 <= 8 < 2 ^ 11 /\
  Cmd.decode (make_cmd false true 1 0x1400 8) = (false, true, 1, 0x1400, 8).
Proof.
  split; [lia|]. split; [lia|]. split; [lia|].
  apply (make_cmd_decode false true 1 0x1400 8); lia.
Defined.

(** C5. For every address, [make_cmd] gives the command word of the
    address's low 17 bits: larger addresses are truncated, for all
    flags, functions and sizes, and the call always yields a word. *)
Theorem make_cmd_addr_truncated (write inc : bool) (fn addr sz : Z) :
  make_cmd write inc fn addr sz
  = make_cmd write inc fn (Z.land addr 0x1FFFF) sz
  /\ Z.land addr 0x1FFFF = addr mod 2 ^ 17
  /\ make_cmd write inc fn (addr + 2 ^ 17) sz = make_cmd write inc fn addr sz.
Proof.
  assert (Hmask : forall a, Z.land a 0x1FFFF = a mod 2 ^ 17).
  { intros a. change 0x1FFFF with (Z.ones 17). apply Z.land_ones. lia. }
  split; [|split].
  - unfold make_cmd. rewrite <- Z.land_assoc, Z.land_diag. reflexivity.
  - apply Hmask.
  - unfold make_cmd. rewrite !Hmask.
    replace (addr + 2 ^ 17) with (addr + 1 * 2 ^ 17) by lia.
    rewrite Z.mod_add by lia. reflexivity.
Qed.

(* ===================================================================== *)
(** * Register reads: padding, request length and returned value *)

Lemma tx_requests_read_exchange d cmd n r err :
  tx_requests (read_exchange d cmd n r err) = [n].
Proof. reflexivity. Qed.

(** C2, as the code has it by design. A register read of 1, 2 or 4
    bytes carries a padding of either 0 or 4 bytes (which function
    spaces get the padding is not part of this statement); the
    command's size field is size + padding; the transport is asked for
    4 + padding bytes whatever the size; [readReg] returns the first
    four bytes read little-endian and drops the bytes after them, and
    the exported read of that width returns the first [size] bytes read
    little-endian. *)
Theorem readReg_padding (env : Env) (fn : Function) (reg size : Z) (s : State) :
  size = 1 \/ size = 2 \/ size = 4 ->
  exists pad r err,
    let cmd := make_cmd false true fn reg (size + pad) in
    let n := Z.to_nat (4 + pad) in
    let s' := mkState (st_dev s)
                (st_trace s ++ read_exchange (st_dev s) cmd n r err) in
    (pad = 0 \/ pad = 4) /\
    Cmd.size cmd = size + pad /\
    length r = n /\
    tx_requests (read_exchange (st_dev s) cmd n r err) = [n] /\
    readReg env fn reg size s = Ret (read_value 4 r err) s' /\
    sized_read env size fn reg s = Ret (read_value (Z.to_nat size) r err) s'.
Proof.
  intros Hsize.
  destruct (register_read_run env fn reg size s Hsize)
    as (Hlen & _ & Hread & Hsized).
  exists (read_padding fn). eexists _, _. cbv zeta.
  split; [destruct (read_padding_cases fn) as [[_ ->]|[_ ->]]; auto|].
  split; [apply read_command_size; lia|].
  split; [exact Hlen|]. split; [reflexivity|].
  split; [exact Hread|exact Hsized].
Qed.

(** A one-byte read on the Pico W handle against a bus that answers
    with four bytes. *)
Lemma readReg_padding_witness :
  (1 = 1 \/ 1 = 2 \/ 1 = 4) /\
  exists pad r err,
    (pad = 0 \/ pad = 4) /\
    length r = Z.to_nat (4 + pad) /\
    sized_read (Script.env [([0x11; 0x22; 0x33; 0x44], None)] 0) 1 1 0x14
      picoState
    = Ret (read_value (Z.to_nat 1) r err)
        (mkState picoDev
           (read_exchange picoDev (make_cmd false true 1 0x14 (1 + pad))
              (Z.to_nat (4 + pad)) r err)).
Proof.
  split; [left; reflexivity|].
  destruct (readReg_padding (Script.env [([0x11; 0x22; 0x33; 0x44], None)] 0)
              1 0x14 1 picoState (or_introl eq_refl))
    as (pad & r & err & Hpad & _ & Hlen & _ & _ & Hsized).
  exists pad, r, err. split; [exact Hpad|]. split; [exact Hlen|exact Hsized].
Defined.

(** C2 as stated fails: a one-byte read that gets the padding asks the
    transport for 8 bytes, not 1 + 4, and [readReg] hands back all four
    leading bytes, not the first one. *)
Lemma readReg_request_counterexample :
  let o := readReg (Script.env [([0x11; 0x22; 0x33; 0x44], None)] 0)
             backplaneFunction 0x14 1 picoState in
  tx_requests (run_trace o) = [8%nat] /\
  8%nat <> Z.to_nat (1 + 4) /\
  run_value o = Some (0x44332211, None) /\
  0x44332211 <> le_uint (firstn 1 [0x11; 0x22; 0x33; 0x44]).
Proof.
  cbv zeta. split; [vm_compute; reflexivity|].
  split; [vm_compute; lia|].
  split; [vm_compute; reflexivity|].
  vm_compute. discriminate.
Qed.

(* ===================================================================== *)
(** * Byte order of the write and read paths *)

(** C6. The write path hands [SPIWrite] the first [size] bytes of the
    big-endian serialization of the value in a four-byte buffer; the
    read path reads the bytes [SPIRead] returns little-endian; so the
    read decoder applied to the write path's bytes gives the value with
    its bytes reversed. For the widths 1, 2 and 4 bytes and every
    function. *)
Theorem register_endianness_asymmetry (env : Env) (fn : Function)
    (reg val size : Z) (s : State) :
  size = 1 \/ size = 2 \/ size = 4 ->
  U32.in_range val ->
  (let scratch := BigEndian_PutUint32 val in
   length scratch = 4%nat /\ Forall is_byte scratch /\
   be_uint scratch = val /\
   writeReg fn reg val size s
   = SPIWrite (make_cmd true true fn reg size)
       (firstn (Z.to_nat size) scratch)
       (mkState (dev_after_write fn reg val size (st_dev s)) (st_trace s))) /\
  (exists r err s',
     SPIRead env (make_cmd false true fn reg (size + read_padding fn))
       (repeat 0 (Z.to_nat (4 + read_padding fn))) s = Ret (r, err) s' /\
     readReg env fn reg size s = Ret (read_value 4 r err) s' /\
     sized_read env size fn reg s
     = Ret (read_value (Z.to_nat size) r err) s') /\
  LittleEndian_Uint32 (BigEndian_PutUint32 val) = bswap32 val.
Proof.
  intros Hsize Hval. split; [|split].
  - cbv zeta. split; [reflexivity|].
    split; [apply BigEndian_PutUint32_bytes|].
    split; [apply be_uint_BigEndian, Hval|].
    apply writeReg_run. lia.
  - destruct (register_read_run env fn reg size s Hsize)
      as (_ & _ & Hread & Hsized).
    eexists _, _, _. split; [|split; [exact Hread|exact Hsized]].
    rewrite SPIRead_run. rewrite repeat_length. reflexivity.
  - apply LittleEndian_of_BigEndian.
Qed.

Lemma register_endianness_asymmetry_witness :
  (4 = 1 \/ 4 = 2 \/ 4 = 4) /\ U32.in_range 1 /\
  LittleEndian_Uint32 (BigEndian_PutUint32 1) = bswap32 1.
Proof.
  split; [right; right; reflexivity|].
  split; [unfold U32.in_range; lia|].
  refine (proj2 (proj2
    (register_endianness_asymmetry (Script.env [] 0) 1 0x10 1 4 picoState
       (or_intror (or_intror eq_refl)) _))).
  unfold U32.in_range; lia.
Defined.

(* ===================================================================== *)
(** * Diagnostic bookkeeping of the device handle *)

Lemma SPIWrite_dev command w s :
  run_dev (SPIWrite command w s) = Some (st_dev s).
Proof.
  destruct w as [|b w].
  - rewrite SPIWrite_nil. reflexivity.
  - rewrite SPIWrite_run. reflexivity.
Qed.

Lemma writeReg_transport fn reg val size s :
  writeReg fn reg val size s
  = (if size >? 4 then panic "slice bounds out of range"
     else SPIWrite (make_cmd true true fn reg size)
            (firstn (Z.to_nat size) (BigEndian_PutUint32 val)))
      (mkState (dev_after_write fn reg val size (st_dev s)) (st_trace s)).
Proof.
  destruct (Z.gtb_spec size 4) as [Hgt|Hle].
  - apply writeReg_oversize. assumption.
  - apply writeReg_run. assumption.
Qed.

(** C10. [writeReg] sets [lastSize] to 8, [lastHeader] to the command
    word and the value, and [lastBackplaneWindow] to
    [currentBackplaneWindow] exactly when the function equals the
    backplane-function constant 0, and leaves the handle alone for any
    other function; the update is in place before the transport is
    invoked (the transport call starts from the updated handle and an
    unchanged trace), so it is there whatever the transport returns;
    [readReg] leaves the whole handle unchanged. *)
Theorem writeReg_bookkeeping (env : Env) (fn : Function)
    (reg val size rsize : Z) (s : State) :
  let d := st_dev s in
  let cmd := make_cmd true true fn reg size in
  (exists d',
     run_dev (writeReg fn reg val size s) = Some d' /\
     (fn = backplaneFunction ->
        lastSize d' = 8 /\ lastHeader d' = (cmd, val) /\
        lastBackplaneWindow d' = currentBackplaneWindow d /\
        currentBackplaneWindow d' = currentBackplaneWindow d /\
        buf d' = buf d) /\
     (fn <> backplaneFunction -> d' = d) /\
     writeReg fn reg val size s
     = (if size >? 4 then panic "slice bounds out of range"
        else SPIWrite cmd (firstn (Z.to_nat size) (BigEndian_PutUint32 val)))
         (mkState d' (st_trace s))) /\
  run_dev (readReg env fn reg rsize s) = Some d.
Proof.
  cbv zeta. split.
  - exists (dev_after_write fn reg val size (st_dev s)).
    split; [|split; [|split]].
    + rewrite writeReg_transport.
      destruct (size >? 4); [reflexivity|apply SPIWrite_dev].
    + intros Hfn. unfold dev_after_write, writeCommand.
      rewrite Hfn, Z.eqb_refl. cbn. repeat split; reflexivity.
    + intros Hfn. unfold dev_after_write.
      destruct (Z.eqb_spec fn backplaneFunction); [contradiction|reflexivity].
    + apply writeReg_transport.
  - rewrite readReg_run. reflexivity.
Qed.

(** A 16-bit write to function 0 and one to function 1 on the Pico W
    handle. *)
Lemma writeReg_bookkeeping_witness :
  (exists d',
     run_dev (writeReg backplaneFunction 0x10 0xBEEF 2 picoState) = Some d' /\
     lastSize d' = 8 /\
     lastHeader d' = (make_cmd true true backplaneFunction 0x10 2, 0xBEEF)) /\
  run_dev (writeReg FuncExtraSPIRegisters 0x10 0xBEEF 2 picoState)
  = Some picoDev.
Proof.
  split.
  - destruct (proj1 (writeReg_bookkeeping (Script.env [] 0) backplaneFunction
                       0x10 0xBEEF 2 1 picoState))
      as (d' & Hrun & Hset & _).
    exists d'. split; [exact Hrun|].
    destruct (Hset eq_refl) as (Hsize & Hhdr & _).
    split; [exact Hsize|exact Hhdr].
  - destruct (proj1 (writeReg_bookkeeping (Script.env [] 0)
                       FuncExtraSPIRegisters 0x10 0xBEEF 2 1 picoState))
      as (d' & Hrun & _ & Hkeep & _).
    rewrite Hrun. f_equal. apply Hkeep. discriminate.
Defined.

(* ===================================================================== *)
(** * Chip-select on exit from a bus exchange *)

(** On the paths that return: [SPIRead], [SPIWriteRead] and [SPIWrite]
    on a payload of at least one byte return, whatever the transport
    answers, with the chip-select pin driven high as their last event,
    and the command-phase write never reports an error. *)
Lemma chip_select_released (env : Env) (command : Z) (r w : list Z)
    (b : Z) (s : State) :
  let high := Some (EvHigh (cs (st_dev s))) in
  (exists res s', SPIRead env command r s = Ret res s' /\
                  last_event (st_trace s') = high) /\
  (exists res s', SPIWriteRead env command r s = Ret res s' /\
                  last_event (st_trace s') = high) /\
  (exists res s', SPIWrite command (b :: w) s = Ret res s' /\
                  last_event (st_trace s') = high) /\
  (forall w', spiWrite32 command w' s <> OutOfFuel /\
              run_value (spiWrite32 command w' s) = Some None) /\
  run_value (SPIWrite command [] s) = None.
Proof.
  cbv zeta. repeat split.
  - rewrite SPIRead_run. eexists _, _. split; [reflexivity|].
    apply last_event_app_r. reflexivity.
  - rewrite SPIWriteRead_run. eexists _, _. split; [reflexivity|].
    cbn [st_trace]. rewrite <- app_assoc.
    apply last_event_app_r, last_event_app_r. reflexivity.
  - rewrite SPIWrite_run. eexists _, _. split; [reflexivity|].
    unfold write_exchange. cbn [st_trace].
    rewrite !app_assoc. apply last_event_snoc.
  - rewrite spiWrite32_run. discriminate.
  - rewrite spiWrite32_run. reflexivity.
Qed.

(** C9. Chip-select is not driven high on every way out of a bus
    exchange: called with an empty payload, [SPIWrite] drives the
    chip-select pin low and then stops with an index panic on [&w[0]];
    it returns no value, the handle is unchanged, the only event it adds
    is the pin going low, and so the exchange ends with chip-select
    still asserted. Stated for every command word and every starting
    state, and evaluated on the Pico W handle for the command word of
    the configuration write. *)
Theorem SPIWrite_empty_payload_cs_low (command : Z) (s : State) :
  (exists s',
     SPIWrite command [] s = Panic "index out of range [0] with length 0" s' /\
     st_dev s' = st_dev s /\
     st_trace s' = st_trace s ++ [EvLow (cs (st_dev s))] /\
     last_event (st_trace s') = Some (EvLow (cs (st_dev s))) /\
     last_event (st_trace s') <> Some (EvHigh (cs (st_dev s)))) /\
  run_value (SPIWrite command [] s) = None /\
  SPIWrite 0xC0000004 [] picoState
  = Panic "index out of range [0] with length 0"
      (mkState picoDev [EvLow (cs picoDev)]).
Proof.
  split; [|split; reflexivity].
  rewrite SPIWrite_nil. eexists. split; [reflexivity|].
  cbn [st_dev st_trace]. rewrite last_event_snoc.
  repeat split; discriminate.
Qed.

(* ===================================================================== *)
(** * Locating the CLM blob *)

(** [align32 val 512] rounds up to the next multiple of 512 as long as
    the sum does not leave [uint32]. *)
Lemma align32_512 val :
  0 <= val -> val + 511 < 2 ^ 32 ->
  align32 val 512 = 512 * ((val + 511) / 512).
Proof.
  intros H0 Hhi. unfold align32, U32.andnot, U32.sub, U32.add, U32.wrap.
  rewrite Zminus_mod_idemp_l.
  replace (val + 512 - 1) with (val + 511) by lia.
  rewrite (Z.mod_small (val + 511)) by lia.
  change ((512 - 1) mod 2 ^ 32) with (Z.ones 9).
  rewrite Z.ldiff_ones_r by lia.
  rewrite Z.shiftr_div_pow2, Z.shiftl_mul_pow2 by lia.
  change (2 ^ 9) with 512. lia.
Qed.

Lemma align32_512_bounds val :
  0 <= val ->
  val <= 512 * ((val + 511) / 512) <= val + 511.
Proof.
  intros H0. pose proof (Z.div_mod (val + 511) 512 ltac:(lia)) as Hdm.
  pose proof (Z.mod_pos_bound (val + 511) 512 ltac:(lia)) as Hm. lia.
Qed.

Section CLMFacts.

Variable clmLen : Z.
Hypothesis HclmLen : 0 <= clmLen < 2 ^ 32.

Variable firmware : ByteSlice.
Hypothesis Hwf : sl_wf firmware.
Hypothesis Hint : Z.of_nat (sl_cap firmware) <= maxInt.

Let len := Z.of_nat (sl_len firmware).
Let cap := Z.of_nat (sl_cap firmware).
Let offset := 512 * ((len + 511) / 512).

Lemma clm_len_range : 0 <= len <= cap /\ cap < 2 ^ 31.
Proof. unfold len, cap, sl_wf, maxInt in *. lia. Qed.

Lemma clm_offset : align32 (U32.wrap len) 512 = offset.
Proof.
  pose proof clm_len_range as [Hl Hc].
  rewrite wrap_small by (unfold U32.in_range; lia).
  apply align32_512; lia.
Qed.

Lemma clm_offset_range : len <= offset <= len + 511.
Proof. pose proof clm_len_range. apply align32_512_bounds. lia. Qed.

Lemma GetCLM_too_small :
  cap < offset + clmLen -> exists msg, GetCLM clmLen firmware = Panicked msg.
Proof.
  intros Hsmall. pose proof clm_len_range as [Hl Hc].
  pose proof clm_offset_range as Ho.
  unfold GetCLM. fold len cap. rewrite clm_offset.
  rewrite (wrap_small cap) by (unfold U32.in_range; lia).
  destruct (Z.ltb_spec cap (U32.add offset clmLen)) as [Hlt|Hge];
    [eexists; reflexivity|].
  unfold slice_expr.
  assert (Hwrap : U32.add offset clmLen = offset + clmLen - 2 ^ 32).
  { unfold U32.add, U32.wrap in Hge |- *.
    destruct (Z.lt_ge_cases (offset + clmLen) (2 ^ 32)) as [Hs|Hs].
    - rewrite Z.mod_small in Hge by lia. lia.
    - symmetry. apply Z.mod_unique with (q := 1); lia. }
  rewrite Hwrap.
  destruct (Z.leb_spec offset (offset + clmLen - 2 ^ 32)) as [Hbad|_];
    [lia|].
  rewrite andb_false_r. eexists; reflexivity.
Qed.

Lemma GetCLM_fits :
  offset + clmLen <= cap ->
  GetCLM clmLen firmware
  = Ok (mkSlice (skipn (Z.to_nat offset) (sl_arr firmware)) (Z.to_nat clmLen)).
Proof.
  intros Hfit. pose proof clm_len_range as [Hl Hc].
  pose proof clm_offset_range as Ho.
  unfold GetCLM. fold len cap. rewrite clm_offset.
  rewrite (wrap_small cap) by (unfold U32.in_range; lia).
  assert (Hsum : U32.add offset clmLen = offset + clmLen).
  { unfold U32.add. apply wrap_small. unfold U32.in_range. lia. }
  rewrite Hsum.
  destruct (Z.ltb_spec cap (offset + clmLen)) as [Hlt|_]; [lia|].
  unfold slice_expr. fold cap.
  destruct (Z.leb_spec 0 offset); [|lia].
  destruct (Z.leb_spec offset (offset + clmLen)); [|lia].
  destruct (Z.leb_spec (offset + clmLen) cap); [|lia].
  cbn [andb]. do 3 f_equal. lia.
Qed.

End CLMFacts.

(** C8. With [L] the length and [C] the capacity of the firmware slice
    (Go slices of a 32-bit target, so C fits an [int]) and
    [offset = 512 * ceil(L / 512)], which is what [align32 L 512]
    computes (0, 1, 511, 512, 513, 1024 give 0, 512, 512, 512, 1024,
    1024): [GetCLM] panics if and only if [C < offset + clmLen], and
    otherwise returns the [clmLen] bytes of the buffer from index
    [offset] on. *)
Theorem GetCLM_located (clmLen : Z) (firmware : ByteSlice) :
  0 <= clmLen < 2 ^ 32 ->
  sl_wf firmware ->
  Z.of_nat (sl_cap firmware) <= maxInt ->
  let offset := 512 * ((Z.of_nat (sl_len firmware) + 511) / 512) in
  align32 (U32.wrap (Z.of_nat (sl_len firmware))) 512 = offset /\
  ((exists msg, GetCLM clmLen firmware = Panicked msg)
   <-> Z.of_nat (sl_cap firmware) < offset + clmLen) /\
  (offset + clmLen <= Z.of_nat (sl_cap firmware) ->
   exists clm,
     GetCLM clmLen firmware = Ok clm /\
     sl_bytes clm
     = firstn (Z.to_nat clmLen) (skipn (Z.to_nat offset) (sl_arr firmware)) /\
     length (sl_bytes clm) = Z.to_nat clmLen) /\
  map (fun L => align32 L 512) [0; 1; 511; 512; 513; 1024]
  = [0; 512; 512; 512; 1024; 1024].
Proof.
  intros Hclm Hwf Hint. cbv zeta.
  split; [apply clm_offset; assumption|].
  split; [|split; [|reflexivity]].
  - split.
    + intros [msg Hpanic].
      destruct (Z.lt_ge_cases (Z.of_nat (sl_cap firmware))
                  (512 * ((Z.of_nat (sl_len firmware) + 511) / 512) + clmLen))
        as [Hlt|Hge]; [assumption|].
      rewrite (GetCLM_fits clmLen Hclm firmware Hwf Hint) in Hpanic by lia.
      discriminate.
    + apply GetCLM_too_small; assumption.
  - intros Hfit. eexists. split; [apply GetCLM_fits; assumption|].
    unfold sl_bytes. cbn [sl_arr sl_len]. split; [reflexivity|].
    apply firstn_length_le. rewrite length_skipn.
    unfold sl_cap in Hfit.
    pose proof (align32_512_bounds (Z.of_nat (sl_len firmware)) ltac:(lia)).
    lia.
Qed.

Lemma GetCLM_located_witness :
  0 <= 4 < 2 ^ 32 /\
  sl_wf (mkSlice (repeat 7 600) 100) /\
  Z.of_nat (sl_cap (mkSlice (repeat 7 600) 100)) <= maxInt /\
  align32 (U32.wrap (Z.of_nat 100)) 512 = 512 * ((Z.of_nat 100 + 511) / 512).
Proof.
  assert (H1 : 0 <= 4 < 2 ^ 32) by lia.
  assert (H2 : sl_wf (mkSlice (repeat 7 600) 100))
    by (unfold sl_wf, sl_cap; cbn [sl_arr sl_len]; rewrite repeat_length; lia).
  assert (H3 : Z.of_nat (sl_cap (mkSlice (repeat 7 600) 100)) <= maxInt)
    by (unfold sl_cap, maxInt; cbn [sl_arr]; rewrite repeat_length; lia).
  split; [exact H1|]. split; [exact H2|]. split; [exact H3|].
  exact (proj1 (GetCLM_located 4 (mkSlice (repeat 7 600) 100) H1 H2 H3)).
Defined.

(* ===================================================================== *)
(** * Write then read through the simulated register store *)

Lemma sim_run_app cspin tr1 tr2 :
  Sim.run cspin (tr1 ++ tr2) = fold_left (Sim.step cspin) tr2 (Sim.run cspin tr1).
Proof. unfold Sim.run. apply fold_left_app. Qed.

Lemma sim_transfers cspin st rx c bs :
  fold_left (Sim.step cspin) (map EvTransfer bs) (Sim.mk st true rx c)
  = Sim.mk st true (rx ++ bs) c.
Proof.
  revert rx. induction bs as [|b bs IH]; intros rx; cbn [map fold_left].
  - rewrite app_nil_r. reflexivity.
  - cbn [Sim.step Sim.selected Sim.store Sim.rx Sim.cmd].
    rewrite IH, <- app_assoc. reflexivity.
Qed.

Lemma le_bytes_length v : length (le_bytes v) = 4%nat.
Proof. reflexivity. Qed.

(** The chip's view of a write exchange: the payload lands in the store
    under the command's function and address fields. *)
Lemma sim_write_exchange d cmd ws (S : Sim.t) :
  U32.in_range cmd -> Cmd.write cmd = true ->
  fold_left (Sim.step (cs d)) (write_exchange d cmd ws) S
  = Sim.mk (((Cmd.fn cmd, Cmd.addr cmd), concat (map le_bytes ws))
              :: Sim.store S)
      false [] (Some cmd).
Proof.
  intros Hcmd Hw. unfold write_exchange, command_phase.
  cbn [app fold_left Sim.step]. rewrite Z.eqb_refl.
  rewrite !fold_left_app. rewrite sim_transfers. cbn [app].
  rewrite sim_transfers. cbn [fold_left Sim.step]. rewrite Z.eqb_refl.
  unfold Sim.deselect. cbn [Sim.selected Sim.rx Sim.store Sim.cmd andb].
  assert (Hlen : (4 <=? length (le_bytes cmd ++ concat (map le_bytes ws)))%nat
                 = true).
  { apply Nat.leb_le. rewrite length_app, le_bytes_length. lia. }
  rewrite Hlen.
  change (firstn 4 (le_bytes cmd ++ concat (map le_bytes ws)))
    with (le_bytes cmd).
  change (skipn 4 (le_bytes cmd ++ concat (map le_bytes ws)))
    with (concat (map le_bytes ws)).
  rewrite LittleEndian_le_bytes by assumption. rewrite Hw. reflexivity.
Qed.

(** The chip's view of the command part of a read exchange. *)
Lemma sim_read_request d cmd (S : Sim.t) :
  U32.in_range cmd -> Cmd.write cmd = false ->
  fold_left (Sim.step (cs d)) (read_request d cmd) S
  = Sim.mk (Sim.store S) true [] (Some cmd).
Proof.
  intros Hcmd Hw. unfold read_request, command_phase.
  cbn [app fold_left Sim.step]. rewrite Z.eqb_refl.
  rewrite !fold_left_app. rewrite sim_transfers. cbn [app].
  cbn [fold_left Sim.step]. rewrite Z.eqb_refl.
  unfold Sim.deselect. cbn [Sim.selected Sim.rx Sim.store Sim.cmd andb].
  change (4 <=? length (le_bytes cmd))%nat with true.
  change (firstn 4 (le_bytes cmd)) with (le_bytes cmd).
  rewrite LittleEndian_le_bytes by assumption. rewrite Hw.
  reflexivity.
Qed.

Lemma land_addr_range addr : 0 <= Z.land addr 0x1ffff < 2 ^ 17.
Proof.
  change 0x1ffff with (Z.ones 17). rewrite Z.land_ones by lia.
  apply Z.mod_pos_bound. lia.
Qed.

Lemma make_cmd_addr_masked write inc fn addr sz :
  0 <= sz < 2 ^ 11 ->
  Cmd.addr (make_cmd write inc fn addr sz) = Z.land addr 0x1ffff.
Proof.
  intros Hsz.
  replace (make_cmd write inc fn addr sz)
    with (make_cmd write inc fn (Z.land addr 0x1ffff) sz)
    by (unfold make_cmd; rewrite <- Z.land_assoc, Z.land_diag; reflexivity).
  apply make_cmd_addr; [apply land_addr_range|assumption].
Qed.

Lemma to_byte_idem b : is_byte b -> U32.to_byte b = b.
Proof. unfold is_byte, U32.to_byte. intros. apply Z.mod_small. assumption. Qed.

Lemma fill_four n b0 b1 b2 b3 :
  (n = 4 \/ n = 8)%nat ->
  is_byte b0 -> is_byte b1 -> is_byte b2 -> is_byte b3 ->
  firstn 4 (fill (repeat 0 n) (firstn n [b0; b1; b2; b3])) = [b0; b1; b2; b3].
Proof.
  intros [-> | ->] H0 H1 H2 H3; unfold fill; cbn;
    rewrite !to_byte_idem by assumption; reflexivity.
Qed.

Lemma le_bytes_of_BigEndian v :
  le_bytes (LittleEndian_Uint32 (BigEndian_PutUint32 v))
  = BigEndian_PutUint32 v.
Proof.
  unfold BigEndian_PutUint32. apply le_bytes_LittleEndian; apply to_byte_range.
Qed.

Lemma write32_payload v :
  concat (map le_bytes
            (unsafe_Slice_u32 (firstn (Z.to_nat 4) (BigEndian_PutUint32 v))
               (Nat.div (length (firstn (Z.to_nat 4) (BigEndian_PutUint32 v))) 4)))
  = BigEndian_PutUint32 v.
Proof.
  change (firstn (Z.to_nat 4) (BigEndian_PutUint32 v))
    with (BigEndian_PutUint32 v).
  change (Nat.div (length (BigEndian_PutUint32 v)) 4) with 1%nat.
  cbn [unsafe_Slice_u32 map concat].
  change (firstn 4 (BigEndian_PutUint32 v)) with (BigEndian_PutUint32 v).
  rewrite app_nil_r. unfold BigEndian_PutUint32.
  apply le_bytes_LittleEndian; apply to_byte_range.
Qed.

(** What a 32-bit register write puts on the wire and leaves behind. *)
Lemma RegisterWriteUint32_run fn reg val s :
  let d' := dev_after_write fn reg val 4 (st_dev s) in
  RegisterWriteUint32 fn reg val s
  = Ret None
      (mkState d'
         (st_trace s ++
          [EvLow (cs d')] ++ command_phase d' (make_cmd true true fn reg 4) ++
          map EvTransfer (BigEndian_PutUint32 val) ++ [EvHigh (cs d')])).
Proof.
  cbv zeta. unfold RegisterWriteUint32. rewrite writeReg_run by lia.
  change (firstn (Z.to_nat 4) (BigEndian_PutUint32 val))
    with (U32.to_byte (U32.shr val 24) ::
          [U32.to_byte (U32.shr val 16); U32.to_byte (U32.shr val 8);
           U32.to_byte val]).
  rewrite SPIWrite_run. cbn [st_dev st_trace]. unfold write_exchange.
  pose proof (write32_payload val) as Hp.
  change (firstn (Z.to_nat 4) (BigEndian_PutUint32 val))
    with (U32.to_byte (U32.shr val 24) ::
          [U32.to_byte (U32.shr val 16); U32.to_byte (U32.shr val 8);
           U32.to_byte val]) in Hp.
  rewrite Hp. reflexivity.
Qed.

(** C3, as the code has it, for the 32-bit width. Against the simulated
    register store, for every function space (0 to 3), every register
    address and every 32-bit value [v], writing [v] with
    [RegisterWriteUint32] and reading the same function and address back
    with [RegisterReadUint32] succeeds and yields [v] with its four
    bytes reversed. *)
Theorem write_read_back_32 (d : Dev) (tr : list Event) (fn : Function)
    (addr v : Z) :
  0 <= fn < 4 ->
  exists s1 s2,
    RegisterWriteUint32 fn addr v (mkState d tr) = Ret None s1 /\
    RegisterReadUint32 (Sim.env (cs d)) fn addr s1 = Ret (bswap32 v, None) s2.
Proof.
  intros Hfn.
  rewrite RegisterWriteUint32_run. cbn [st_dev st_trace].
  set (d1 := dev_after_write fn addr v 4 d).
  assert (Hcs : cs d1 = cs d) by apply dev_after_write_pins.
  eexists _, _. split; [reflexivity|].
  change (RegisterReadUint32 (Sim.env (cs d)) fn addr)
    with (sized_read (Sim.env (cs d)) 4 fn addr).
  match goal with
  | |- sized_read _ _ _ _ ?s = _ =>
      destruct (register_read_run (Sim.env (cs d)) fn addr 4 s
                  (or_intror (or_intror eq_refl))) as (_ & _ & _ & Hrun)
  end.
  rewrite Hrun. clear Hrun. unfold env_Tx.
  cbn [st_dev st_trace env_transport Sim.env].
  set (cw := make_cmd true true fn addr 4).
  set (cr := make_cmd false true fn addr (4 + read_padding fn)).
  assert (Hpad : 0 <= 4 + read_padding fn < 2 ^ 11).
  { destruct (read_padding_cases fn) as [[_ ->]|[_ ->]]; lia. }
  assert (Hcw : U32.in_range cw)
    by (apply make_cmd_range; unfold U32.in_range; lia).
  assert (Hcr : U32.in_range cr)
    by (apply make_cmd_range; unfold U32.in_range; lia).
  assert (Hww : Cmd.write cw = true) by (apply make_cmd_write; lia).
  assert (Hwr : Cmd.write cr = false) by (apply make_cmd_write; lia).
  assert (Hkey : (Cmd.fn cr, Cmd.addr cr) = (Cmd.fn cw, Cmd.addr cw)).
  { unfold cr, cw. rewrite !make_cmd_fn, !make_cmd_addr_masked by lia.
    reflexivity. }
  (* the chip's state when the transport is asked for the reply *)
  assert (Hsim :
    Sim.run (cs d)
      ((tr ++ [EvLow (cs d1)] ++ command_phase d1 cw ++
        map EvTransfer (BigEndian_PutUint32 v) ++ [EvHigh (cs d1)]) ++
       read_request d1 cr)
    = Sim.mk (((Cmd.fn cw, Cmd.addr cw), BigEndian_PutUint32 v)
                :: Sim.store (Sim.run (cs d) tr))
        true [] (Some cr)).
  { rewrite <- Hcs. rewrite !sim_run_app.
    pose proof (sim_write_exchange d1 cw
                  [LittleEndian_Uint32 (BigEndian_PutUint32 v)]
                  (Sim.run (cs d1) tr) Hcw Hww) as Hwe.
    unfold write_exchange in Hwe. cbn [map concat] in Hwe.
    rewrite app_nil_r in Hwe.
    rewrite le_bytes_of_BigEndian in Hwe.
    rewrite Hwe. rewrite sim_read_request by assumption. reflexivity. }
  unfold Sim.Tx. rewrite Hsim. cbn [Sim.cmd Sim.store]. rewrite Hwr.
  rewrite Hkey. cbn [Sim.lookup fst snd]. rewrite !Z.eqb_refl.
  cbn [andb fst snd option_map].
  unfold read_value. do 2 f_equal.
  - f_equal. rewrite <- LittleEndian_of_BigEndian.
    unfold BigEndian_PutUint32.
    rewrite fill_four; try apply to_byte_range.
    + symmetry. apply LittleEndian_Uint32_sum; apply to_byte_range.
    + destruct (read_padding_cases fn) as [[_ ->]|[_ ->]]; [right|left];
        reflexivity.
Qed.

Lemma write_read_back_32_witness :
  0 <= 1 < 4 /\
  exists s1 s2,
    RegisterWriteUint32 1 0x10 0x11223344 picoState = Ret None s1 /\
    RegisterReadUint32 (Sim.env (cs picoDev)) 1 0x10 s1
    = Ret (bswap32 0x11223344, None) s2.
Proof.
  split; [lia|].
  apply (write_read_back_32 picoDev [] 1 0x10 0x11223344). lia.
Defined.

(** C3 as stated fails at width 32: after writing 1 to function 1,
    address 0x10, the simulated store returns the bytes the driver sent
    (00 00 00 01) and the read yields 0x01000000. *)
Lemma write_read_back_counterexample :
  exists s1 s2,
    RegisterWriteUint32 FuncExtraSPIRegisters 0x10 1 picoState = Ret None s1 /\
    RegisterReadUint32 (Sim.env (cs picoDev)) FuncExtraSPIRegisters 0x10 s1
    = Ret (0x01000000, None) s2 /\
    0x01000000 <> 1.
Proof.
  eexists _, _. split; [vm_compute; reflexivity|].
  split; [vm_compute; reflexivity|discriminate].
Qed.

(* ===================================================================== *)
(** * Bring-up: the handshake poll and the configuration write *)

Section InitFacts.

Variable env : Env.

Lemma poll_read_run s :
  let d := st_dev s in
  let reply := poll_reply env d (st_trace s) in
  RegisterReadUint32 env FuncAllSPIRegisters pollAddr s
  = Ret (read_value 4 (fst reply) (snd reply))
      (mkState d (st_trace s ++ poll_exchange d (fst reply) (snd reply))).
Proof.
  cbv zeta.
  exact (proj2 (proj2 (proj2
    (register_read_run env FuncAllSPIRegisters pollAddr 4 s
       (or_intror (or_intror eq_refl)))))).
Qed.

Lemma pollLoop_seen fuel start s :
  pollLoop env (S fuel) start pollExpect s = Ret None s.
Proof. reflexivity. Qed.

(** One turn of the loop when the last value read is not the pattern. *)
Lemma pollLoop_step fuel start got s :
  got <> pollExpect ->
  let d := st_dev s in
  let reply := poll_reply env d (st_trace s) in
  let r := fst reply in
  let s1 := mkState d (st_trace s ++ poll_exchange d r (snd reply)) in
  pollLoop env (S fuel) start got s
  = match snd reply with
    | Some e => Ret (Some e) s1
    | None =>
        if negb (poll_value r =? pollExpect)
           && (env_now env (st_trace s1) - start >? pollLimit)
        then Ret (Some (ErrorsNew "poll failed"))
               (mkState d (st_trace s1 ++
                           [EvPrint "poll failed with ";
                            EvPrintln (poll_value r)]))
        else pollLoop env fuel start (poll_value r) s1
    end.
Proof.
  intros Hgot. cbv zeta. cbn [pollLoop].
  destruct (Z.eqb_spec got pollExpect) as [Heq|_]; [contradiction|].
  unfold bind at 1. rewrite poll_read_run.
  destruct (snd (poll_reply env (st_dev s) (st_trace s))) as [e|] eqn:Herr.
  - reflexivity.
  - cbn [read_value snd fst]. fold (poll_value (fst (poll_reply env (st_dev s) (st_trace s)))).
    unfold time_Since, time_Now, bind, get_trace, ret, emit.
    cbn [st_trace st_dev].
    destruct (negb _ && _); [|reflexivity].
    cbn [st_trace st_dev app]. rewrite <- ?app_assoc. reflexivity.
Qed.

(** Every run of the loop that returns is a sequence of missed polls
    followed by one of the three endings. *)
Lemma pollLoop_sound fuel : forall start got s res s',
  got <> pollExpect ->
  pollLoop env fuel start got s = Ret res s' ->
  exists misses ending,
    poll_misses env start (st_dev s) (st_trace s) misses /\
    poll_end env start (st_dev s)
      (st_trace s ++ misses_events (st_dev s) misses) ending /\
    res = ending_result ending /\
    s' = mkState (st_dev s)
           (st_trace s ++ misses_events (st_dev s) misses ++
            ending_events (st_dev s) ending).
Proof.
  induction fuel as [|fuel IH]; intros start got s res s' Hgot Hrun.
  - discriminate Hrun.
  - rewrite pollLoop_step in Hrun by assumption.
    destruct (poll_reply env (st_dev s) (st_trace s)) as [r err] eqn:Hreply.
    cbn [fst snd] in Hrun.
    destruct err as [e|].
    + (* transport error *)
      inversion Hrun; subst. exists [], (PollTransportError r e).
      cbn [misses_events map concat poll_misses poll_end ending_events
             ending_result app]. rewrite app_nil_r.
      repeat split; try reflexivity. exact Hreply.
    + destruct (Z.eqb_spec (poll_value r) pollExpect) as [Hseen|Hmiss].
      * (* pattern read: the next test of the loop condition leaves *)
        cbn [negb andb] in Hrun. rewrite Hseen in Hrun.
        destruct fuel as [|fuel]; [discriminate Hrun|].
        rewrite pollLoop_seen in Hrun. inversion Hrun; subst.
        exists [], (PollSeen r).
        cbn [misses_events map concat poll_misses poll_end ending_events
               ending_result app]. rewrite app_nil_r.
        repeat split; try reflexivity; assumption.
      * cbn [negb andb st_trace] in Hrun.
        destruct (Z.gtb_spec (env_now env (st_trace s ++ poll_exchange (st_dev s) r None) - start) pollLimit)
          as [Hlate|Hintime].
        -- (* past the deadline *)
           inversion Hrun; subst. exists [], (PollTimeout r).
           cbn [misses_events map concat poll_misses poll_end ending_events
                  ending_result app]. rewrite app_nil_r.
           repeat split; try reflexivity; try assumption.
           ++ lia.
           ++ rewrite <- app_assoc. reflexivity.
        -- (* poll again *)
           apply IH in Hrun; [|assumption].
           destruct Hrun as (misses & ending & Hm & He & Hres & Hs').
           cbn [st_dev st_trace] in Hm, He, Hs'.
           exists (r :: misses), ending.
           cbn [misses_events map concat poll_misses].
           fold (misses_events (st_dev s) misses).
           rewrite <- !app_assoc in He, Hs'.
           rewrite <- !app_assoc.
           repeat split; try assumption.
Qed.

(** Conversely, when the environment's answers end the loop after
    finitely many polls, the loop returns, given fuel for them. *)
Lemma pollLoop_complete misses : forall ending fuel start got s,
  got <> pollExpect ->
  (length misses + 2 <= fuel)%nat ->
  poll_misses env start (st_dev s) (st_trace s) misses ->
  poll_end env start (st_dev s)
    (st_trace s ++ misses_events (st_dev s) misses) ending ->
  pollLoop env fuel start got s
  = Ret (ending_result ending)
      (mkState (st_dev s)
         (st_trace s ++ misses_events (st_dev s) misses ++
          ending_events (st_dev s) ending)).
Proof.
  induction misses as [|r misses IH];
    intros ending fuel start got s Hgot Hfuel Hm He.
  - destruct fuel as [|[|fuel]]; cbn [length] in Hfuel; try lia.
    rewrite pollLoop_step by assumption.
    cbn [misses_events map concat app] in He |- *.
    rewrite app_nil_r in He.
    destruct ending as [r|r e|r]; cbn [poll_end] in He.
    + destruct He as [Hreply Hseen]. rewrite Hreply. cbn [fst snd].
      rewrite Hseen, Z.eqb_refl. cbn [negb andb].
      rewrite pollLoop_seen. reflexivity.
    + rewrite He. reflexivity.
    + destruct He as (Hreply & Hmiss & Hlate). rewrite Hreply. cbn [fst snd].
      destruct (Z.eqb_spec (poll_value r) pollExpect); [contradiction|].
      cbn [negb andb st_trace].
      destruct (Z.gtb_spec (env_now env (st_trace s ++ poll_exchange (st_dev s) r None) - start) pollLimit);
        [|lia].
      cbn [ending_events ending_result]. rewrite <- app_assoc. reflexivity.
  - destruct fuel as [|fuel]; cbn [length] in Hfuel; [lia|].
    cbn [poll_misses] in Hm. destruct Hm as (Hreply & Hmiss & Hintime & Hm).
    rewrite pollLoop_step by assumption. rewrite Hreply. cbn [fst snd].
    destruct (Z.eqb_spec (poll_value r) pollExpect); [contradiction|].
    cbn [negb andb st_trace].
    destruct (Z.gtb_spec (env_now env (st_trace s ++ poll_exchange (st_dev s) r None) - start) pollLimit);
      [lia|].
    cbn [misses_events map concat] in He |- *.
    fold (misses_events (st_dev s) misses) in He |- *.
    rewrite (IH ending fuel start (poll_value r)); cbn [st_dev st_trace];
      try assumption; try lia.
    + rewrite <- !app_assoc. reflexivity.
    + rewrite <- app_assoc. exact He.
Qed.

(** The loop is bounded: when every poll takes at least [delta] > 0 on
    the clock, the loop returns once the fuel covers the deadline. *)
Lemma pollLoop_returns delta d :
  0 < delta ->
  (forall tr r err,
     env_now env (tr ++ poll_exchange d r err) >= env_now env tr + delta) ->
  forall fuel start got s,
    st_dev s = d ->
    got <> pollExpect ->
    (2 <= fuel)%nat ->
    pollLimit - (env_now env (st_trace s) - start) < (Z.of_nat fuel - 1) * delta ->
    exists res s', pollLoop env fuel start got s = Ret res s'.
Proof.
  intros Hdelta Hclock.
  induction fuel as [|fuel IH]; intros start got s Hd Hgot Hfuel Hrem; [lia|].
  rewrite pollLoop_step by assumption. rewrite Hd.
  destruct (poll_reply env d (st_trace s)) as [r err]. cbn [fst snd].
  destruct err as [e|]; [eexists _, _; reflexivity|].
  destruct (Z.eqb_spec (poll_value r) pollExpect) as [Hseen|Hmiss].
  - cbn [negb andb]. rewrite Hseen.
    destruct fuel as [|fuel]; [lia|].
    rewrite pollLoop_seen. eexists _, _; reflexivity.
  - cbn [negb andb st_trace].
    destruct (Z.gtb_spec (env_now env (st_trace s ++ poll_exchange d r None) - start) pollLimit)
      as [Hlate|Hintime]; [eexists _, _; reflexivity|].
    pose proof (Hclock (st_trace s) r None) as Hadv.
    apply IH; cbn [st_dev st_trace]; try reflexivity; try assumption.
    + assert (0 < (Z.of_nat (S fuel) - 1) * delta - delta) by lia.
      destruct fuel as [|[|fuel]]; try lia.
    + lia.
Qed.

End InitFacts.

Lemma pollExpect_not_zero : 0 <> pollExpect.
Proof. unfold pollExpect. lia. Qed.

Lemma config_write_run s :
  let d := st_dev s in
  RegisterWriteUint32 FuncAllSPIRegisters 0 initConfigValue s
  = Ret None
      (mkState (dev_after_write FuncAllSPIRegisters 0 initConfigValue 4 d)
         (st_trace s ++ config_write_events d)).
Proof. cbv zeta. rewrite RegisterWriteUint32_run. reflexivity. Qed.

(** [Init] is the bring-up events, the poll loop, and then the
    configuration write when the loop falls through. *)
Lemma Init_unfold env fuel s :
  let d := st_dev s in
  let s0 := mkState d (st_trace s ++ bringup_events d) in
  Init env fuel s
  = match pollLoop env fuel (env_now env (st_trace s0)) 0 s0 with
    | Ret (Some e) s1 => Ret (Some e) s1
    | Ret None s1 =>
        RegisterWriteUint32 FuncAllSPIRegisters 0 initConfigValue s1
    | Panic msg s1 => Panic msg s1
    | OutOfFuel => OutOfFuel
    end.
Proof.
  cbv zeta. unfold Init, gpioSetup, time_Now, bind, get_dev, get_trace, emit,
    ret, sharedDATA. cbn [st_dev st_trace].
  replace ((((((((st_trace s ++ [EvConfigure (wlRegOn (st_dev s)) PinOutput]) ++
                 [EvConfigure (sharedSD (st_dev s)) PinOutput]) ++
                [EvLow (sharedSD (st_dev s))]) ++
               [EvConfigure (cs (st_dev s)) PinOutput]) ++
              [EvHigh (cs (st_dev s))]) ++
             [EvHigh (wlRegOn (st_dev s))]) ++
            [EvSleep (60 * Millisecond)]))
    with (st_trace s ++ bringup_events (st_dev s))
    by (unfold bringup_events; rewrite <- !app_assoc; reflexivity).
  destruct (pollLoop env fuel _ 0 _) as [[e|] s1|msg s1|]; reflexivity.
Qed.

Lemma Init_sound env fuel s res s' :
  Init env fuel s = Ret res s' ->
  let d := st_dev s in
  let tr0 := st_trace s ++ bringup_events d in
  let start := env_now env tr0 in
  exists misses ending,
    poll_misses env start d tr0 misses /\
    poll_end env start d (tr0 ++ misses_events d misses) ending /\
    res = ending_result ending /\
    s' = mkState (Init_dev d ending) (st_trace s ++ Init_events d misses ending).
Proof.
  intros Hrun. cbv zeta. rewrite Init_unfold in Hrun. cbv zeta in Hrun.
  destruct (pollLoop env fuel _ 0 _) as [early s1|msg s1|] eqn:Hloop;
    try discriminate.
  apply pollLoop_sound in Hloop; [|apply pollExpect_not_zero].
  destruct Hloop as (misses & ending & Hm & He & Hres & Hs1).
  cbn [st_dev st_trace] in Hm, He, Hs1.
  exists misses, ending. split; [exact Hm|]. split; [exact He|].
  subst early s1. unfold Init_events, Init_dev.
  destruct ending as [r|r e|r]; cbn [ending_result] in Hrun |- *.
  - rewrite config_write_run in Hrun. inversion Hrun; subst.
    split; [reflexivity|]. cbn [st_dev st_trace].
    rewrite <- !app_assoc. reflexivity.
  - inversion Hrun; subst. split; [reflexivity|].
    rewrite app_nil_r, <- !app_assoc. reflexivity.
  - inversion Hrun; subst. split; [reflexivity|].
    rewrite app_nil_r, <- !app_assoc. reflexivity.
Qed.

Lemma Init_complete env fuel s misses ending :
  let d := st_dev s in
  let tr0 := st_trace s ++ bringup_events d in
  let start := env_now env tr0 in
  (length misses + 2 <= fuel)%nat ->
  poll_misses env start d tr0 misses ->
  poll_end env start d (tr0 ++ misses_events d misses) ending ->
  Init env fuel s
  = Ret (ending_result ending)
      (mkState (Init_dev d ending) (st_trace s ++ Init_events d misses ending)).
Proof.
  cbv zeta. intros Hfuel Hm He. rewrite Init_unfold. cbv zeta.
  rewrite (pollLoop_complete env misses ending); cbn [st_dev st_trace];
    try assumption; [|apply pollExpect_not_zero].
  unfold Init_events, Init_dev.
  destruct ending as [r|r e|r]; cbn [ending_result].
  - rewrite config_write_run. cbn [st_dev st_trace].
    rewrite <- !app_assoc. reflexivity.
  - rewrite app_nil_r, <- !app_assoc. reflexivity.
  - rewrite app_nil_r, <- !app_assoc. reflexivity.
Qed.

(** With a clock that advances by at least [delta] > 0 over every poll,
    [Init] returns once the fuel covers the deadline. *)
Lemma Init_returns env delta s fuel :
  0 < delta ->
  (forall tr r err,
     env_now env (tr ++ poll_exchange (st_dev s) r err)
     >= env_now env tr + delta) ->
  (2 <= fuel)%nat ->
  pollLimit < (Z.of_nat fuel - 1) * delta ->
  exists res s', Init env fuel s = Ret res s'.
Proof.
  intros Hdelta Hclock Hfuel Hlimit. rewrite Init_unfold. cbv zeta.
  cbn [st_trace].
  destruct (pollLoop_returns env delta (st_dev s) Hdelta Hclock fuel
              (env_now env (st_trace s ++ bringup_events (st_dev s))) 0
              (mkState (st_dev s) (st_trace s ++ bringup_events (st_dev s)))
              eq_refl pollExpect_not_zero Hfuel)
    as (early & s1 & Hloop).
  - cbn [st_trace]. lia.
  - rewrite Hloop. destruct early as [e|].
    + eexists _, _; reflexivity.
    + rewrite config_write_run. eexists _, _; reflexivity.
Qed.

(** *** Command words on the wire during [Init] *)

Lemma bus_commands_transfers bs rest :
  bus_commands (map EvTransfer bs ++ rest) = bus_commands rest.
Proof. induction bs as [|b bs IH]; [reflexivity|exact IH]. Qed.

Lemma bus_commands_read_exchange d cmd n r err rest :
  U32.in_range cmd ->
  bus_commands (read_exchange d cmd n r err ++ rest) = cmd :: bus_commands rest.
Proof.
  intros Hcmd. unfold read_exchange, command_phase, le_bytes.
  cbn [app map bus_commands].
  f_equal. apply (LittleEndian_le_bytes cmd Hcmd).
Qed.

Lemma bus_commands_config_write d rest :
  bus_commands (config_write_events d ++ rest)
  = configCommand :: bus_commands rest.
Proof.
  unfold config_write_events, command_phase, le_bytes, BigEndian_PutUint32.
  cbn [app map bus_commands]. f_equal.
Qed.

Lemma pollCommand_range : U32.in_range pollCommand.
Proof. vm_compute. split; congruence. Qed.

Lemma bus_commands_misses d misses rest :
  bus_commands (misses_events d misses ++ rest)
  = repeat pollCommand (length misses) ++ bus_commands rest.
Proof.
  induction misses as [|r misses IH]; [reflexivity|].
  cbn [misses_events map concat length repeat app].
  fold (misses_events d misses). rewrite <- app_assoc.
  unfold poll_exchange at 1.
  rewrite bus_commands_read_exchange by apply pollCommand_range.
  rewrite IH. reflexivity.
Qed.

Lemma bus_commands_Init d misses ending :
  bus_commands (Init_events d misses ending)
  = repeat pollCommand (length misses) ++ pollCommand ::
    match ending with PollSeen _ => [configCommand] | _ => [] end.
Proof.
  unfold Init_events.
  change (bus_commands (bringup_events d ++ ?l)) with (bus_commands l).
  rewrite bus_commands_misses. f_equal.
  destruct ending as [r|r e|r]; cbn [ending_events]; unfold poll_exchange.
  - rewrite bus_commands_read_exchange by apply pollCommand_range.
    rewrite <- (app_nil_r (config_write_events d)).
    rewrite bus_commands_config_write. reflexivity.
  - rewrite bus_commands_read_exchange by apply pollCommand_range. reflexivity.
  - rewrite <- app_assoc.
    rewrite bus_commands_read_exchange by apply pollCommand_range. reflexivity.
Qed.

Lemma poll_reply_error env d tr e :
  snd (poll_reply env d tr) = Some e -> exists code, e = TransportError code.
Proof.
  unfold poll_reply, env_Tx. cbn [fst snd].
  destruct (snd (env_transport env _ _)) as [code|]; cbn [option_map];
    intros H; inversion H. eexists; reflexivity.
Qed.

Lemma poll_failed_iff_timeout env start d tr ending :
  poll_end env start d tr ending ->
  (ending_result ending = Some (ErrorsNew "poll failed")
   <-> exists r, ending = PollTimeout r).
Proof.
  intros He. destruct ending as [r|r e|r]; cbn [ending_result]; split.
  - discriminate.
  - intros [r' H]; discriminate.
  - intros H. cbn [poll_end] in He.
    destruct (poll_reply_error env d tr e) as [code ->];
      [rewrite He; reflexivity|discriminate].
  - intros [r' H]; discriminate.
  - intros _. eexists; reflexivity.
  - reflexivity.
Qed.

Lemma config_in_bus_commands k ending :
  In configCommand
    (repeat pollCommand k ++ pollCommand ::
     match ending with PollSeen _ => [configCommand] | _ => [] end)
  <-> exists r, ending = PollSeen r.
Proof.
  assert (Hne : configCommand <> pollCommand) by (vm_compute; discriminate).
  rewrite in_app_iff. split.
  - intros [Hin|[Heq|Hin]].
    + apply repeat_spec in Hin. contradiction.
    + symmetry in Heq. contradiction.
    + destruct ending as [r|r e|r]; [eexists; reflexivity|destruct Hin..].
  - intros [r ->]. right. right. left. reflexivity.
Qed.

(** C1, as the code has it. After the bring-up events and the 60 ms
    sleep, every bus exchange of [Init] before the configuration write is
    a 32-bit register read whose command word has function 0 (bus) and
    address field 0x1400, the byte-swapped form of 0x14; the polls go on
    while the value read is not 0xADBEEDFE, the transport reports no
    error and the time since polling started is within [pollLimit]
    (100 ms). A run ends with the 'poll failed' error exactly when a poll
    read another value than the pattern past the deadline; that error is
    none of the transport's errors, which are returned as they are, and
    such a run issues no configuration write. The configuration write is
    on the wire exactly when the last poll read the pattern. Whenever
    the environment's answers end the polling, [Init] returns, and it
    does so within the deadline's worth of polls when the clock advances
    on every poll. *)
Theorem Init_handshake_poll (env : Env) (s : State) :
  let d := st_dev s in
  let tr0 := st_trace s ++ bringup_events d in
  let start := env_now env tr0 in
  Cmd.decode pollCommand = (false, true, FuncAllSPIRegisters, 0x1400, 8) /\
  pollExpect = 0xADBEEDFE /\ pollLimit = 100 * Millisecond /\
  (forall fuel res s',
     Init env fuel s = Ret res s' ->
     exists misses ending,
       poll_misses env start d tr0 misses /\
       poll_end env start d (tr0 ++ misses_events d misses) ending /\
       res = ending_result ending /\
       st_trace s' = st_trace s ++ Init_events d misses ending /\
       bus_commands (Init_events d misses ending)
       = repeat pollCommand (length misses) ++ pollCommand ::
         match ending with PollSeen _ => [configCommand] | _ => [] end /\
       (res = Some (ErrorsNew "poll failed") <-> exists r, ending = PollTimeout r) /\
       (In configCommand (bus_commands (Init_events d misses ending))
        <-> exists r, ending = PollSeen r)) /\
  (forall misses r fuel,
     (length misses + 2 <= fuel)%nat ->
     poll_misses env start d tr0 misses ->
     poll_end env start d (tr0 ++ misses_events d misses) (PollTimeout r) ->
     Init env fuel s
     = Ret (Some (ErrorsNew "poll failed"))
         (mkState d (st_trace s ++ Init_events d misses (PollTimeout r))) /\
     (forall code, ErrorsNew "poll failed" <> TransportError code) /\
     bus_commands (Init_events d misses (PollTimeout r))
     = repeat pollCommand (length misses) ++ [pollCommand]) /\
  (forall delta fuel,
     0 < delta ->
     (forall tr r err,
        env_now env (tr ++ poll_exchange d r err) >= env_now env tr + delta) ->
     (2 <= fuel)%nat ->
     pollLimit < (Z.of_nat fuel - 1) * delta ->
     exists res s', Init env fuel s = Ret res s').
Proof.
  cbv zeta. split; [vm_compute; reflexivity|].
  split; [reflexivity|]. split; [reflexivity|]. split; [|split].
  - intros fuel res s' Hrun.
    destruct (Init_sound env fuel s res s' Hrun)
      as (misses & ending & Hm & He & Hres & Hs').
    exists misses, ending.
    split; [exact Hm|]. split; [exact He|]. split; [exact Hres|].
    split; [rewrite Hs'; reflexivity|].
    split; [apply bus_commands_Init|]. split.
    + rewrite Hres. eapply poll_failed_iff_timeout. exact He.
    + rewrite bus_commands_Init. apply config_in_bus_commands.
  - intros misses r fuel Hfuel Hm He. split; [|split].
    + apply (Init_complete env fuel s misses (PollTimeout r) Hfuel Hm He).
    + intros code. discriminate.
    + apply (bus_commands_Init (st_dev s) misses (PollTimeout r)).
  - intros delta fuel Hdelta Hclock Hfuel Hlimit.
    apply (Init_returns env delta s fuel Hdelta Hclock Hfuel Hlimit).
Qed.

(** A run against a bus that answers zeros and takes 60 ms per read:
    the first poll is within the deadline, the second is past it. *)
Lemma Init_handshake_poll_witness :
  let env := Script.env [] (60 * Millisecond) in
  let d := picoDev in
  let tr0 := bringup_events d in
  let zeros := repeat 0 8 in
  (1 + 2 <= 3)%nat /\
  poll_misses env (env_now env tr0) d tr0 [zeros] /\
  poll_end env (env_now env tr0) d (tr0 ++ misses_events d [zeros])
    (PollTimeout zeros) /\
  Init env 3 picoState
  = Ret (Some (ErrorsNew "poll failed"))
      (mkState d (Init_events d [zeros] (PollTimeout zeros))).
Proof.
  cbv zeta.
  assert (Hfuel : (length [repeat 0 8] + 2 <= 3)%nat) by (cbn; lia).
  assert (Hm : poll_misses (Script.env [] (60 * Millisecond))
                 (env_now (Script.env [] (60 * Millisecond))
                    (st_trace picoState ++ bringup_events (st_dev picoState)))
                 (st_dev picoState)
                 (st_trace picoState ++ bringup_events (st_dev picoState))
                 [repeat 0 8]).
  { cbn [poll_misses]. split; [vm_compute; reflexivity|].
    split; [vm_compute; discriminate|].
    split; [vm_compute; discriminate|exact I]. }
  assert (He : poll_end (Script.env [] (60 * Millisecond))
                 (env_now (Script.env [] (60 * Millisecond))
                    (st_trace picoState ++ bringup_events (st_dev picoState)))
                 (st_dev picoState)
                 ((st_trace picoState ++ bringup_events (st_dev picoState)) ++
                  misses_events (st_dev picoState) [repeat 0 8])
                 (PollTimeout (repeat 0 8))).
  { cbn [poll_end]. split; [vm_compute; reflexivity|].
    split; [vm_compute; discriminate|vm_compute; reflexivity]. }
  split; [exact Hfuel|]. split; [exact Hm|]. split; [exact He|].
  exact (proj1 (proj1 (proj2 (proj2 (proj2 (proj2
    (Init_handshake_poll (Script.env [] (60 * Millisecond)) picoState)))))
      [repeat 0 8] (repeat 0 8) 3%nat Hfuel Hm He)).
Defined.

(** C1 as stated fails on the probe address: in a run where the first
    poll reads the pattern, the command words on the wire are the poll
    command and the configuration command, and the poll command's
    address field is 0x1400, not 0x14. *)
Lemma Init_poll_address_counterexample :
  let env := Script.env [([0xFE; 0xED; 0xBE; 0xAD], None)] Millisecond in
  exists s',
    Init env 3 picoState = Ret None s' /\
    bus_commands (st_trace s') = [pollCommand; configCommand] /\
    Cmd.write pollCommand = false /\
    Cmd.fn pollCommand = FuncAllSPIRegisters /\
    Cmd.addr pollCommand = 0x1400 /\
    Cmd.addr pollCommand <> TestRegisterAddr.
Proof.
  cbv zeta. eexists. split; [vm_compute; reflexivity|].
  repeat split; try (vm_compute; reflexivity). vm_compute. discriminate.
Qed.

(** C7. When the handshake poll has read the pattern, [Init] issues one
    register write and nothing after it: a 4-byte write to function 0
    (bus), address 0x0, of a value with bits 24 (wake-up), 26 (interrupt
    polarity) and 31 (word length) set and bits 27 (high speed) and 30
    (endianness) clear; the command words on the wire are the polls
    followed by that single write command, and [Init] returns what the
    write returned. *)
Theorem Init_config_write (env : Env) (s : State) :
  let d := st_dev s in
  let tr0 := st_trace s ++ bringup_events d in
  let start := env_now env tr0 in
  (Z.testbit initConfigValue 24 = true /\
   Z.testbit initConfigValue 26 = true /\
   Z.testbit initConfigValue 27 = false /\
   Z.testbit initConfigValue 30 = false /\
   Z.testbit initConfigValue 31 = true) /\
  Cmd.decode configCommand = (true, true, FuncAllSPIRegisters, 0x0, 4) /\
  config_write_events d
  = [EvLow (cs d); EvConfigure (sharedSD d) PinOutput;
     EvTransfer 0x04; EvTransfer 0x00; EvTransfer 0x00; EvTransfer 0xC0;
     EvTransfer 0x85; EvTransfer 0x00; EvTransfer 0x00; EvTransfer 0x00;
     EvHigh (cs d)] /\
  (forall misses r fuel,
     (length misses + 2 <= fuel)%nat ->
     poll_misses env start d tr0 misses ->
     poll_end env start d (tr0 ++ misses_events d misses) (PollSeen r) ->
     let s_mid :=
       mkState d (tr0 ++ misses_events d misses ++ poll_exchange d r None) in
     exists err s_fin,
       RegisterWriteUint32 FuncAllSPIRegisters 0x0 initConfigValue s_mid
       = Ret err s_fin /\
       Init env fuel s = Ret err s_fin /\
       st_trace s_fin = st_trace s_mid ++ config_write_events d /\
       st_trace s_fin = st_trace s ++ Init_events d misses (PollSeen r) /\
       bus_commands (Init_events d misses (PollSeen r))
       = repeat pollCommand (length misses) ++ [pollCommand; configCommand]).
Proof.
  cbv zeta. split; [repeat split; vm_compute; reflexivity|].
  split; [vm_compute; reflexivity|]. split; [reflexivity|].
  intros misses r fuel Hfuel Hm He.
  eexists None, _. split; [apply config_write_run|].
  cbn [st_dev st_trace]. split; [|split; [reflexivity|split]].
  - rewrite (Init_complete env fuel s misses (PollSeen r) Hfuel Hm He).
    cbn [ending_result Init_dev]. unfold Init_events. cbn [ending_events].
    rewrite <- !app_assoc. reflexivity.
  - unfold Init_events. cbn [ending_events].
    rewrite <- !app_assoc. reflexivity.
  - apply (bus_commands_Init (st_dev s) misses (PollSeen r)).
Qed.

(** A run against a bus whose first answer is the pattern. *)
Lemma Init_config_write_witness :
  let env := Script.env [([0xFE; 0xED; 0xBE; 0xAD], None)] Millisecond in
  let d := picoDev in
  let tr0 := bringup_events d in
  let r := [0xFE; 0xED; 0xBE; 0xAD; 0; 0; 0; 0] in
  (0 + 2 <= 2)%nat /\
  poll_misses env (env_now env tr0) d tr0 [] /\
  poll_end env (env_now env tr0) d (tr0 ++ misses_events d []) (PollSeen r) /\
  exists err s_fin,
    RegisterWriteUint32 FuncAllSPIRegisters 0x0 initConfigValue
      (mkState d (tr0 ++ misses_events d [] ++ poll_exchange d r None))
    = Ret err s_fin /\
    Init env 2 picoState = Ret err s_fin.
Proof.
  cbv zeta.
  set (env := Script.env [([0xFE; 0xED; 0xBE; 0xAD], None)] Millisecond).
  set (r := [0xFE; 0xED; 0xBE; 0xAD; 0; 0; 0; 0]).
  assert (Hfuel : (@length (list Z) [] + 2 <= 2)%nat) by (cbn; lia).
  assert (Hm : poll_misses env
                 (env_now env (st_trace picoState ++ bringup_events (st_dev picoState)))
                 (st_dev picoState)
                 (st_trace picoState ++ bringup_events (st_dev picoState)) [])
    by exact I.
  assert (He : poll_end env
                 (env_now env (st_trace picoState ++ bringup_events (st_dev picoState)))
                 (st_dev picoState)
                 ((st_trace picoState ++ bringup_events (st_dev picoState)) ++
                  misses_events (st_dev picoState) [])
                 (PollSeen r)).
  { cbn [poll_end]. split; vm_compute; reflexivity. }
  split; [exact Hfuel|]. split; [exact Hm|]. split; [exact He|].
  destruct (proj2 (proj2 (proj2 (Init_config_write env picoState)))
              [] r 2%nat Hfuel Hm He) as (err & s_fin & Hw & Hi & _).
  exists err, s_fin. split; [exact Hw|exact Hi].
Defined.

(* ===================================================================== *)
(** * Status word decoding *)

Lemma land_pow2_testbit s k :
  0 <= k -> negb (Z.land s (2 ^ k) =? 0) = Z.testbit s k.
Proof.
  intros Hk. destruct (Z.testbit s k) eqn:Hbit.
  - destruct (Z.eqb_spec (Z.land s (2 ^ k)) 0) as [Hz|]; [|reflexivity].
    assert (Hc : Z.testbit (Z.land s (2 ^ k)) k = true).
    { rewrite Z.land_spec, Hbit, Z.pow2_bits_true by assumption. reflexivity. }
    rewrite Hz, Z.bits_0 in Hc. discriminate.
  - replace (Z.land s (2 ^ k)) with 0; [reflexivity|].
    symmetry. apply Z.bits_inj'. intros i Hi.
    rewrite Z.land_spec, Z.bits_0, Z.pow2_bits_eqb by assumption.
    destruct (Z.eqb_spec k i) as [->|]; [rewrite Hbit|];
      auto using andb_false_r.
Qed.

(** X1. Every accessor of the status word tests one bit: bit 0 data
    unavailable, 1 underflow, 2 overflow, 3 F2 interrupt, 5 F2 rx ready,
    6 F3 rx ready, 7 host command/data error, 8 F2 packet available,
    20 F3 packet available; [GSPIPacketAvailable] tests bit 8 as well,
    so it always agrees with [F2PacketAvailable]. *)
Theorem status_flags_bits (s : Z) :
  Status.DataUnavailable s = Z.testbit s 0 /\
  Status.IsUnderflow s = Z.testbit s 1 /\
  Status.IsOverflow s = Z.testbit s 2 /\
  Status.F2Interrupt s = Z.testbit s 3 /\
  Status.F2RxReady s = Z.testbit s 5 /\
  Status.F3RxReady s = Z.testbit s 6 /\
  Status.HostCommandDataError s = Z.testbit s 7 /\
  Status.F2PacketAvailable s = Z.testbit s 8 /\
  Status.F3PacketAvailable s = Z.testbit s 20 /\
  Status.GSPIPacketAvailable s = Status.F2PacketAvailable s.
Proof.
  repeat split; try reflexivity.
  - apply (land_pow2_testbit s 0); lia.
  - apply (land_pow2_testbit s 1); lia.
  - apply (land_pow2_testbit s 2); lia.
  - apply (land_pow2_testbit s 3); lia.
  - apply (land_pow2_testbit s 5); lia.
  - apply (land_pow2_testbit s 6); lia.
  - apply (land_pow2_testbit s 7); lia.
  - apply (land_pow2_testbit s 8); lia.
  - apply (land_pow2_testbit s 20); lia.
Qed.

(** X2. For a 32-bit status word the F2 packet length is the 11-bit
    field at bits 9-19 and the F3 packet length the field at bits 21-31
    (the [uint16] conversion before the mask loses nothing); both are
    below 2048. *)
Theorem status_packet_lengths (s : Z) :
  U32.in_range s ->
  Status.F2PacketLength s = (s / 2 ^ 9) mod 2 ^ 11 /\
  Status.F3PacketLength s = s / 2 ^ 21 /\
  0 <= Status.F2PacketLength s < 2 ^ 11 /\
  0 <= Status.F3PacketLength s < 2 ^ 11.
Proof.
  unfold U32.in_range. intros Hs.
  assert (H2 : Status.F2PacketLength s = (s / 2 ^ 9) mod 2 ^ 11).
  { unfold Status.F2PacketLength, U32.shr.
    rewrite Z.shiftr_div_pow2 by lia.
    change (Z.shiftl 1 11 - 1) with (Z.ones 11).
    rewrite <- (Z.land_ones (s / 2 ^ 9) 16) by lia.
    rewrite <- Z.land_assoc.
    change (Z.land (Z.ones 16) (Z.ones 11)) with (Z.ones 11).
    apply Z.land_ones. lia. }
  assert (H3 : Status.F3PacketLength s = s / 2 ^ 21).
  { unfold Status.F3PacketLength, U32.shr.
    rewrite Z.shiftr_div_pow2 by lia.
    change (Z.shiftl 1 11 - 1) with (Z.ones 11).
    assert (0 <= s / 2 ^ 21 < 2 ^ 11).
    { split; [apply Z.div_pos; lia|].
      apply Z.div_lt_upper_bound; lia. }
    rewrite Z.mod_small by lia.
    rewrite Z.land_ones by lia. apply Z.mod_small. assumption. }
  split; [exact H2|]. split; [exact H3|]. split.
  - rewrite H2. apply Z.mod_pos_bound. lia.
  - rewrite H3. split; [apply Z.div_pos; lia|].
    apply Z.div_lt_upper_bound; lia.
Qed.

Lemma status_packet_lengths_witness :
  U32.in_range 0xFFE00200 /\
  Status.F2PacketLength 0xFFE00200 = (0xFFE00200 / 2 ^ 9) mod 2 ^ 11.
Proof.
  assert (H : U32.in_range 0xFFE00200) by (unfold U32.in_range; lia).
  split; [exact H|]. exact (proj1 (status_packet_lengths 0xFFE00200 H)).
Defined.

Lemma reported_mask_zero s :
  Z.land s Status.reported_mask = 0 <->
  Z.testbit s 0 = false /\ Z.testbit s 1 = false /\ Z.testbit s 2 = false /\
  Z.testbit s 5 = false /\ Z.testbit s 6 = false /\ Z.testbit s 7 = false /\
  Z.testbit s 8 = false /\ Z.testbit s 20 = false.
Proof.
  split.
  - intros Hz.
    assert (Hbit : forall k, Z.testbit Status.reported_mask k = true ->
                             Z.testbit s k = false).
    { intros k Hk. destruct (Z.testbit s k) eqn:Hs; [|reflexivity].
      assert (Hc : Z.testbit (Z.land s Status.reported_mask) k = true)
        by (rewrite Z.land_spec, Hs, Hk; reflexivity).
      rewrite Hz, Z.bits_0 in Hc. discriminate. }
    repeat split; apply Hbit; reflexivity.
  - intros (H0 & H1 & H2 & H5 & H6 & H7 & H8 & H20).
    apply Z.bits_inj'. intros i Hi. rewrite Z.land_spec, Z.bits_0.
    destruct (Z.lt_ge_cases i 21) as [Hlt|Hge].
    + assert (Hcase : i = 0 \/ i = 1 \/ i = 2 \/ i = 3 \/ i = 4 \/ i = 5 \/
                      i = 6 \/ i = 7 \/ i = 8 \/ i = 9 \/ i = 10 \/ i = 11 \/
                      i = 12 \/ i = 13 \/ i = 14 \/ i = 15 \/ i = 16 \/
                      i = 17 \/ i = 18 \/ i = 19 \/ i = 20) by lia.
      repeat (destruct Hcase as [->|Hcase]);
        try subst i;
        first [ rewrite H0 | rewrite H1 | rewrite H2 | rewrite H5
              | rewrite H6 | rewrite H7 | rewrite H8 | rewrite H20
              | apply andb_false_r ];
        reflexivity.
    + rewrite (testbit_above Status.reported_mask 21 i);
        [apply andb_false_r| unfold Status.reported_mask; lia | assumption].
Qed.

Lemma status_accessor_bits s :
  Status.DataUnavailable s = Z.testbit s 0 /\
  Status.IsUnderflow s = Z.testbit s 1 /\
  Status.IsOverflow s = Z.testbit s 2 /\
  Status.F2RxReady s = Z.testbit s 5 /\
  Status.F3RxReady s = Z.testbit s 6 /\
  Status.HostCommandDataError s = Z.testbit s 7 /\
  Status.F2PacketAvailable s = Z.testbit s 8 /\
  Status.F3PacketAvailable s = Z.testbit s 20.
Proof.
  repeat split.
  - apply (land_pow2_testbit s 0); lia.
  - apply (land_pow2_testbit s 1); lia.
  - apply (land_pow2_testbit s 2); lia.
  - apply (land_pow2_testbit s 5); lia.
  - apply (land_pow2_testbit s 6); lia.
  - apply (land_pow2_testbit s 7); lia.
  - apply (land_pow2_testbit s 8); lia.
  - apply (land_pow2_testbit s 20); lia.
Qed.

(** X3. The summary string is "no status" exactly for the zero word. A
    non-zero word none of whose reported bits (0, 1, 2, 5, 6, 7, 8, 20)
    is set, such as one with only the F2 interrupt bit, gets the empty
    string, and only such words do. *)
Theorem status_string_cases (s : Z) :
  (Status.String s = "no status" <-> s = 0) /\
  (Status.String s = "" <-> s <> 0 /\ Z.land s Status.reported_mask = 0).
Proof.
  rewrite reported_mask_zero.
  destruct (status_accessor_bits s)
    as (E0 & E1 & E2 & E5 & E6 & E7 & E8 & E20).
  rewrite <- E0, <- E1, <- E2, <- E5, <- E6, <- E7, <- E8, <- E20.
  unfold Status.String.
  destruct (Z.eqb_spec s 0) as [Hz|Hnz].
  - split; split; try tauto; try discriminate.
  - cbv zeta.
    destruct (Status.HostCommandDataError s), (Status.DataUnavailable s),
      (Status.IsOverflow s), (Status.IsUnderflow s),
      (Status.F2PacketAvailable s), (Status.F3PacketAvailable s),
      (Status.F2RxReady s), (Status.F3RxReady s);
      cbn [Status.add_if orb String.append];
      (split; split;
       [ discriminate
       | intros; contradiction
       | first [ discriminate | intros _; repeat split; (reflexivity || assumption) ]
       | first [ intros _; reflexivity
               | intros (_ & H); decompose [and] H; discriminate ] ]).
Qed.

(** X4. [Function.String] names the four function spaces with four
    different names and answers "unknown" exactly for the values that
    are none of the four. *)
Theorem function_string_names (f g : Function) :
  (Function_String f = "unknown" <-> ~ (f = 0 \/ f = 1 \/ f = 2 \/ f = 3)) /\
  (Function_String f = Function_String g ->
   Function_String f <> "unknown" -> f = g).
Proof.
  unfold Function_String.
  destruct (Z.eqb_spec f 0), (Z.eqb_spec f 1), (Z.eqb_spec f 2),
    (Z.eqb_spec f 3); try lia;
    (split; [split; [try discriminate; intros _; lia | intros H; try reflexivity; exfalso; lia]|]);
    destruct (Z.eqb_spec g 0), (Z.eqb_spec g 1), (Z.eqb_spec g 2),
      (Z.eqb_spec g 3); try lia;
      intros Heq Hne; try discriminate Heq; try congruence.
Qed.

Lemma function_string_names_witness :
  Function_String 2 = Function_String 2 /\
  Function_String 2 <> "unknown" /\ 2 = 2.
Proof.
  assert (H1 : Function_String 2 = Function_String 2) by reflexivity.
  assert (H2 : Function_String 2 <> "unknown") by discriminate.
  split; [exact H1|]. split; [exact H2|].
  exact (proj2 (function_string_names 2 2) H1 H2).
Defined.

(* ===================================================================== *)
(** * More on the command codec *)

(** X5. For in-range fields the command word is the sum of the fields
    at their positions, and so lies below 2^32. *)
Theorem make_cmd_sum (write inc : bool) (fn addr sz : Z) :
  0 <= fn < 4 -> 0 <= addr < 2 ^ 17 -> 0 <= sz < 2 ^ 11 ->
  make_cmd write inc fn addr sz
  = b2u32 write * 2 ^ 31 + b2u32 inc * 2 ^ 30 + fn * 2 ^ 28
    + addr * 2 ^ 11 + sz.
Proof.
  intros Hfn Haddr Hsz. unfold make_cmd, U32.shl, U32.wrap.
  change 0x1ffff with (Z.ones 17).
  rewrite Z.land_ones, (Z.mod_small addr) by lia.
  assert (Hw : 0 <= b2u32 write <= 1) by (destruct write; cbn; lia).
  assert (Hi : 0 <= b2u32 inc <= 1) by (destruct inc; cbn; lia).
  rewrite !Z.shiftl_mul_pow2 by lia.
  rewrite !Z.mod_small by lia.
  rewrite <- !Z.shiftl_mul_pow2 by lia.
  rewrite (Z.lor_comm _ sz).
  rewrite (Z.lor_comm _ (Z.shiftl addr 11)).
  rewrite (Z.lor_comm _ (Z.shiftl fn 28)).
  rewrite (Z.lor_comm _ (Z.shiftl (b2u32 inc) 30)).
  rewrite !Z.lor_assoc.
  rewrite (lor_shiftl_add sz addr 11) by lia.
  rewrite (lor_shiftl_add _ fn 28) by lia.
  rewrite (lor_shiftl_add _ (b2u32 inc) 30) by lia.
  rewrite (lor_shiftl_add _ (b2u32 write) 31) by lia.
  rewrite !Z.shiftl_mul_pow2 by lia. lia.
Qed.

Lemma make_cmd_sum_witness :
  0 <= 1 < 4 /\ 0 <= 0x1400 < 2 ^ 17 /\ 0 <= 8 < 2 ^ 11 /\
  make_cmd false true 1 0x1400 8
  = b2u32 false * 2 ^ 31 + b2u32 true * 2 ^ 30 + 1 * 2 ^ 28
    + 0x1400 * 2 ^ 11 + 8.
Proof.
  split; [lia|]. split; [lia|]. split; [lia|].
  apply (make_cmd_sum false true 1 0x1400 8); lia.
Defined.

(** X6. [make_cmd] checks neither the function nor the address: with a
    size below 2^11, bit 3 of the function value is or-ed into the write
    flag, bit 2 into the increment flag, and the function and address
    fields carry the low two bits of the function and the low 17 bits of
    the address. *)
Theorem make_cmd_unchecked_fields (write inc : bool) (fn addr sz : Z) :
  0 <= sz < 2 ^ 11 ->
  Cmd.write (make_cmd write inc fn addr sz) = write || Z.testbit fn 3 /\
  Cmd.inc (make_cmd write inc fn addr sz) = inc || Z.testbit fn 2 /\
  Cmd.fn (make_cmd write inc fn addr sz) = fn mod 4 /\
  Cmd.addr (make_cmd write inc fn addr sz) = addr mod 2 ^ 17.
Proof.
  intros Hsz.
  assert (Hsz_hi : forall i, 11 <= i -> Z.testbit sz i = false)
    by (intros i Hi; apply (testbit_above sz 11); assumption).
  split; [|split; [|split]].
  - unfold Cmd.write. rewrite make_cmd_testbit by lia.
    rewrite Hsz_hi by lia.
    change (31 =? 31) with true. change (31 =? 30) with false.
    change (28 <=? 31) with true. change (31 <? 32) with true.
    change (31 <? 28) with false. change (31 - 28) with 3.
    bool_norm. reflexivity.
  - unfold Cmd.inc. rewrite make_cmd_testbit by lia.
    rewrite Hsz_hi by lia.
    change (30 =? 31) with false. change (30 =? 30) with true.
    change (28 <=? 30) with true. change (30 <? 32) with true.
    change (30 <? 28) with false. change (30 - 28) with 2.
    bool_norm. reflexivity.
  - unfold Cmd.fn. change 3 with (Z.ones 2). rewrite Z.land_ones by lia.
    change 4 with (2 ^ 2).
    apply Z.bits_inj'. intros i Hi.
    rewrite !Z.testbit_mod_pow2 by lia.
    rewrite Z.shiftr_spec, make_cmd_testbit by lia.
    replace (i + 28 - 28) with i by lia.
    rewrite Hsz_hi by lia.
    destruct (Z.ltb_spec i 2); [|reflexivity].
    cmp_cases; try lia; bool_norm; try reflexivity.
    all: rewrite (Z.testbit_neg_r addr) by lia; reflexivity.
  - rewrite make_cmd_addr_masked by assumption.
    change 0x1ffff with (Z.ones 17). apply Z.land_ones. lia.
Qed.

Lemma make_cmd_unchecked_fields_witness :
  0 <= 4 < 2 ^ 11 /\
  Cmd.write (make_cmd false true 8 0x10 4) = false || Z.testbit 8 3.
Proof.
  split; [lia|].
  apply (make_cmd_unchecked_fields false true 8 0x10 4). lia.
Defined.

(* ===================================================================== *)
(** * What the bus exchanges put on the wire *)

(** On a little-endian host the word view of a byte buffer, sent low
    byte first, is the buffer's leading bytes. *)
Lemma unsafe_slice_bytes n : forall w,
  Forall is_byte w -> (4 * n <= length w)%nat ->
  concat (map le_bytes (unsafe_Slice_u32 w n)) = firstn (4 * n) w.
Proof.
  induction n as [|n IH]; intros w Hb Hlen; [reflexivity|].
  destruct w as [|b0 [|b1 [|b2 [|b3 w]]]]; cbn [length] in Hlen; try lia.
  inversion Hb as [|? ? H0 Hb1]; subst.
  inversion Hb1 as [|? ? H1 Hb2]; subst.
  inversion Hb2 as [|? ? H2 Hb3]; subst.
  inversion Hb3 as [|? ? H3 Hb4]; subst.
  cbn [unsafe_Slice_u32 map concat firstn skipn].
  rewrite le_bytes_LittleEndian by assumption.
  rewrite IH by (assumption || lia).
  replace (4 * S n)%nat with (S (S (S (S (4 * n))))) by lia.
  reflexivity.
Qed.

(** X7. [SPIWrite] on a non-empty payload frames one chip-select
    window: data line to output, the command word low byte first, then
    the payload's leading whole words byte for byte; the last
    [len(w) mod 4] bytes of the payload are not sent. It returns [nil]
    and leaves the handle alone. *)
Theorem SPIWrite_wire (command b : Z) (w : list Z) (s : State) :
  Forall is_byte (b :: w) ->
  let d := st_dev s in
  let whole := (4 * Nat.div (length (b :: w)) 4)%nat in
  SPIWrite command (b :: w) s
  = Ret None
      (mkState d
         (st_trace s ++
          [EvLow (cs d); EvConfigure (sharedSD d) PinOutput] ++
          map EvTransfer (le_bytes command ++ firstn whole (b :: w)) ++
          [EvHigh (cs d)])).
Proof.
  intros Hb. cbv zeta. rewrite SPIWrite_run. cbv zeta.
  unfold write_exchange, command_phase.
  rewrite unsafe_slice_bytes; [|assumption|].
  - rewrite map_app. cbn [app]. rewrite <- !app_assoc. reflexivity.
  - pose proof (Nat.div_mod_eq (length (b :: w)) 4). lia.
Qed.

Lemma SPIWrite_wire_witness :
  Forall is_byte [1; 2; 3; 4; 5; 6] /\
  SPIWrite 0xC0000004 [1; 2; 3; 4; 5; 6] picoState
  = Ret None
      (mkState picoDev
         ([EvLow 25; EvConfigure 24 PinOutput] ++
          map EvTransfer (le_bytes 0xC0000004 ++ [1; 2; 3; 4]) ++
          [EvHigh 25])).
Proof.
  assert (H : Forall is_byte [1; 2; 3; 4; 5; 6])
    by (repeat constructor; unfold is_byte; lia).
  split; [exact H|].
  exact (SPIWrite_wire 0xC0000004 1 [2; 3; 4; 5; 6] picoState H).
Defined.

(** X8. The 8- and 16-bit register writes put only the command word on
    the wire: their one- or two-byte payload holds no whole word, so the
    value is never sent and the events do not depend on it. *)
Theorem subword_write_sends_no_value (fn : Function) (reg val val' size : Z)
    (s : State) :
  size = 1 \/ size = 2 ->
  let d := st_dev s in
  run_trace (writeReg fn reg val size s)
  = st_trace s ++
    [EvLow (cs d); EvConfigure (sharedSD d) PinOutput] ++
    map EvTransfer (le_bytes (make_cmd true true fn reg size)) ++
    [EvHigh (cs d)] /\
  run_value (writeReg fn reg val size s) = Some None /\
  run_trace (writeReg fn reg val size s)
  = run_trace (writeReg fn reg val' size s).
Proof.
  intros Hsize. cbv zeta.
  assert (Hrun : forall v,
    writeReg fn reg v size s
    = Ret None
        (mkState (dev_after_write fn reg v size (st_dev s))
           (st_trace s ++
            [EvLow (cs (st_dev s)); EvConfigure (sharedSD (st_dev s)) PinOutput] ++
            map EvTransfer (le_bytes (make_cmd true true fn reg size)) ++
            [EvHigh (cs (st_dev s))]))).
  { intros v. rewrite writeReg_run by lia.
    destruct (dev_after_write_pins fn reg v size (st_dev s)) as (Hcs & Hsd & _).
    destruct Hsize as [-> | ->];
      [ change (firstn (Z.to_nat 1) (BigEndian_PutUint32 v))
          with [U32.to_byte (U32.shr v 24)]
      | change (firstn (Z.to_nat 2) (BigEndian_PutUint32 v))
          with [U32.to_byte (U32.shr v 24); U32.to_byte (U32.shr v 16)] ];
      rewrite SPIWrite_run; cbn [st_dev st_trace];
      unfold write_exchange, command_phase;
      cbn [length Nat.div Nat.divmod fst unsafe_Slice_u32 map concat];
      rewrite Hcs, Hsd; unfold writeCommand; cbn [app];
      rewrite <- ?app_assoc; reflexivity. }
  rewrite !Hrun. cbn [run_trace run_value st_trace]. auto.
Qed.

Lemma subword_write_sends_no_value_witness :
  (1 = 1 \/ 1 = 2) /\
  run_trace (writeReg 1 0x10 0x5A 1 picoState)
  = run_trace (writeReg 1 0x10 0xA5 1 picoState).
Proof.
  split; [left; reflexivity|].
  exact (proj2 (proj2
    (subword_write_sends_no_value 1 0x10 0x5A 0xA5 1 picoState
       (or_introl eq_refl)))).
Defined.

(** X9. The 32-bit register write clocks out, inside one chip-select
    window, the command word low byte first and then the value high
    byte first, and returns [nil]. *)
Theorem RegisterWriteUint32_wire (fn : Function) (reg val : Z) (s : State) :
  let d := st_dev s in
  let c := make_cmd true true fn reg 4 in
  run_value (RegisterWriteUint32 fn reg val s) = Some None /\
  run_trace (RegisterWriteUint32 fn reg val s)
  = st_trace s ++
    [EvLow (cs d); EvConfigure (sharedSD d) PinOutput;
     EvTransfer (c mod 256); EvTransfer ((c / 2 ^ 8) mod 256);
     EvTransfer ((c / 2 ^ 16) mod 256); EvTransfer ((c / 2 ^ 24) mod 256);
     EvTransfer ((val / 2 ^ 24) mod 256); EvTransfer ((val / 2 ^ 16) mod 256);
     EvTransfer ((val / 2 ^ 8) mod 256); EvTransfer (val mod 256);
     EvHigh (cs d)].
Proof.
  cbv zeta. rewrite RegisterWriteUint32_run. cbv zeta.
  destruct (dev_after_write_pins fn reg val 4 (st_dev s)) as (Hcs & Hsd & _).
  cbn [run_value run_trace st_trace]. split; [reflexivity|].
  rewrite Hcs. unfold command_phase, le_bytes, BigEndian_PutUint32.
  rewrite Hsd. rewrite !to_byte_shr by lia.
  unfold U32.to_byte. change (2 ^ 8) with 256 at 1 5.
  cbn [map app]. reflexivity.
Qed.

(** X10. [SPIWrite32] refuses a word buffer whose length is not a
    multiple of four before touching any pin; for a non-empty buffer of
    4k words it sends the command and then only the first k words; on
    the empty buffer it panics with chip-select asserted. *)
Theorem SPIWrite32_behaviour (command : Z) (w : list Z) (s : State) :
  let d := st_dev s in
  (Nat.modulo (length w) 4 <> 0%nat ->
   SPIWrite32 command w s
   = Ret (Some (ErrorsNew "length of buffer must be multiple of 4")) s) /\
  (Nat.modulo (length w) 4 = 0%nat -> w <> [] ->
   SPIWrite32 command w s
   = Ret None
       (mkState d
          (st_trace s ++
           write_exchange d command (firstn (Nat.div (length w) 4) w)))) /\
  SPIWrite32 command [] s
  = Panic "index out of range [0] with length 0"
      (mkState d (st_trace s ++ [EvLow (cs d)])).
Proof.
  cbv zeta. split; [|split].
  - intros Hmod. unfold SPIWrite32.
    destruct (Nat.eqb_spec (Nat.modulo (length w) 4) 0) as [H|_];
      [contradiction|reflexivity].
  - intros Hmod Hne. unfold SPIWrite32. rewrite Hmod. cbn [Nat.eqb negb].
    destruct w as [|v w]; [contradiction|].
    unfold bind, get_dev, emit. rewrite spiWrite32_run.
    cbn [st_dev st_trace]. unfold ret, write_exchange.
    rewrite <- !app_assoc. reflexivity.
  - reflexivity.
Qed.

Lemma SPIWrite32_behaviour_witness :
  Nat.modulo (length [1; 2; 3; 4; 5]) 4 <> 0%nat /\
  SPIWrite32 0xC0000004 [1; 2; 3; 4; 5] picoState
  = Ret (Some (ErrorsNew "length of buffer must be multiple of 4")) picoState.
Proof.
  assert (H : Nat.modulo (length [1; 2; 3; 4; 5]) 4 <> 0%nat)
    by (cbn; discriminate).
  split; [exact H|].
  exact (proj1 (SPIWrite32_behaviour 0xC0000004 [1; 2; 3; 4; 5] picoState) H).
Defined.

Lemma testbit_mod_pow2 a n i :
  0 <= n -> Z.testbit (a mod 2 ^ n) i = (i <? n) && Z.testbit a i.
Proof.
  intros Hn. destruct (Z.ltb_spec i n).
  - rewrite Z.mod_pow2_bits_low by lia. reflexivity.
  - rewrite Z.mod_pow2_bits_high by lia. reflexivity.
Qed.

(** The two bytes of [uint16(x)] are the two low bytes of [x]. *)
Lemma halfword_low x : U32.to_byte (x mod 2 ^ 16) = U32.to_byte x.
Proof.
  unfold U32.to_byte. apply Z.bits_inj'. intros i Hi.
  rewrite !testbit_mod_pow2 by lia.
  destruct (Z.ltb_spec i 8); [|reflexivity].
  destruct (Z.ltb_spec i 16); [reflexivity|lia].
Qed.

Lemma halfword_high x :
  U32.to_byte (U32.shr (x mod 2 ^ 16) 8) = U32.to_byte (U32.shr x 8).
Proof.
  unfold U32.to_byte, U32.shr. apply Z.bits_inj'. intros i Hi.
  rewrite !testbit_mod_pow2 by lia.
  rewrite !Z.shiftr_spec by lia.
  rewrite testbit_mod_pow2 by lia.
  destruct (Z.ltb_spec i 8); [|reflexivity].
  destruct (Z.ltb_spec (i + 8) 16); [reflexivity|lia].
Qed.

Lemma write_halfwords_run w s :
  write_halfwords w s
  = Ret tt
      (mkState (st_dev s)
         (st_trace s ++
          map EvTransfer
            (concat (map (fun v => [U32.to_byte v; U32.to_byte (U32.shr v 8)]) w)))).
Proof.
  revert s. induction w as [|v w IH]; intros s.
  - cbn. unfold ret. rewrite app_nil_r. destruct s; reflexivity.
  - cbn [write_halfwords]. unfold bind at 1.
    unfold writeU16LittleEndian, bind, emit, ret. cbn [st_dev st_trace].
    rewrite IH. cbn [st_dev st_trace map concat app].
    rewrite <- !app_assoc. reflexivity.
Qed.

(** X11. In 16-bit mode [spiWrite16] sends the command as two
    little-endian halfwords, low half first, which are the same four
    bytes [spiWrite32] sends; each payload halfword follows low byte
    first, and the call returns [nil]. *)
Theorem spiWrite16_wire (command : Z) (w : list Z) (s : State) :
  let d := st_dev s in
  spiWrite16 command w s
  = Ret None
      (mkState d
         (st_trace s ++
          EvConfigure (sharedSD d) PinOutput ::
          map EvTransfer
            (le_bytes command ++
             concat (map (fun v => [U32.to_byte v; U32.to_byte (U32.shr v 8)]) w))))
  /\ spiWrite16 command [] s = spiWrite32 command [] s.
Proof.
  cbv zeta.
  assert (Hgen : forall w0,
    spiWrite16 command w0 s
    = Ret None
        (mkState (st_dev s)
           (st_trace s ++
            EvConfigure (sharedSD (st_dev s)) PinOutput ::
            map EvTransfer
              (le_bytes command ++
               concat (map (fun v => [U32.to_byte v; U32.to_byte (U32.shr v 8)]) w0))))).
  { intros w0.
    unfold spiWrite16, writeU16LittleEndian, get_dev, sharedDATA.
    unfold bind, emit, ret.
    cbn [st_dev st_trace is_err orb]. rewrite ?orb_false_r.
    rewrite !halfword_low, !halfword_high.
    unfold U32.shr at 3. rewrite Z.shiftr_shiftr by lia.
    change (16 + 8) with 24. fold (U32.shr command 24).
    destruct w0 as [|v w0].
    - cbn [length Nat.eqb map concat]. unfold le_bytes.
      rewrite app_nil_r. cbn [map]. rewrite <- !app_assoc. reflexivity.
    - cbn [length Nat.eqb]. rewrite write_halfwords_run.
      cbn [st_dev st_trace]. unfold le_bytes.
      rewrite map_app. cbn [map]. rewrite <- !app_assoc. reflexivity. }
  split; [apply Hgen|].
  rewrite Hgen, spiWrite32_run. unfold command_phase.
  cbn [map concat]. rewrite !app_nil_r. reflexivity.
Qed.

Lemma env_Tx_error env tr n e :
  snd (env_Tx env tr n) = Some e -> exists code, e = TransportError code.
Proof.
  unfold env_Tx. cbn [snd].
  destruct (snd (env_transport env tr n)); cbn [option_map];
    intros H; inversion H. eexists; reflexivity.
Qed.

(** X12. Both read exchanges send the command with the data line as
    output and then switch it to input with pull-down before asking the
    transport for [len(r)] bytes. [SPIRead] releases chip-select after
    the command and asserts it again for the response; [SPIWriteRead]
    keeps one chip-select window. Both return the buffer at its length
    and the transport's own error, if any. *)
Theorem read_exchange_framing (env : Env) (command : Z) (r : list Z)
    (s : State) :
  let d := st_dev s in
  let n := length r in
  let cmdphase :=
    EvConfigure (sharedSD d) PinOutput :: map EvTransfer (le_bytes command) in
  (exists r' err,
     SPIRead env command r s
     = Ret (r', err)
         (mkState d
            (st_trace s ++ [EvLow (cs d)] ++ cmdphase ++
             [EvHigh (cs d); EvConfigure (sharedSD d) PinInputPulldown;
              EvLow (cs d); EvTx n r' err; EvHigh (cs d)])) /\
     length r' = n /\
     (forall e, err = Some e -> exists code, e = TransportError code)) /\
  (exists r' err,
     SPIWriteRead env command r s
     = Ret (r', err)
         (mkState d
            (st_trace s ++ [EvLow (cs d)] ++ cmdphase ++
             [EvConfigure (sharedSD d) PinInputPulldown;
              EvTx n r' err; EvHigh (cs d)])) /\
     length r' = n /\
     (forall e, err = Some e -> exists code, e = TransportError code)).
Proof.
  cbv zeta. split.
  - rewrite SPIRead_run. cbv zeta. eexists _, _.
    split; [reflexivity|]. split; [apply fill_length|].
    intros e He. eapply env_Tx_error. exact He.
  - rewrite SPIWriteRead_run. cbv zeta. eexists _, _.
    split; [|split; [apply fill_length|]].
    + unfold command_phase. cbn [app]. rewrite <- !app_assoc. reflexivity.
    + intros e He. eapply env_Tx_error. exact He.
Qed.

Lemma le_uint_bound bs :
  Forall is_byte bs -> 0 <= le_uint bs < 256 ^ Z.of_nat (length bs).
Proof.
  induction 1 as [|b bs Hb _ IH]; [cbn; lia|].
  cbn [le_uint length]. rewrite Nat2Z.inj_succ, Z.pow_succ_r by lia.
  unfold is_byte in Hb. lia.
Qed.

(** X13. A register read of 1, 2 or 4 bytes always returns. Without a
    transport error its value is below 2^8, 2^16 or 2^32; with one, the
    value is 0 and the error is the transport's. *)
Theorem register_read_result (env : Env) (fn : Function) (reg size : Z)
    (s : State) :
  size = 1 \/ size = 2 \/ size = 4 ->
  exists v err s',
    sized_read env size fn reg s = Ret (v, err) s' /\
    0 <= v < 2 ^ (8 * size) /\
    (forall e, err = Some e -> v = 0 /\ exists code, e = TransportError code).
Proof.
  intros Hsize.
  destruct (register_read_run env fn reg size s Hsize)
    as (Hlen & Hbytes & _ & Hrun).
  rewrite Hrun. unfold read_value.
  match goal with
  | |- context [snd (env_Tx env ?tr ?n)] =>
      pose proof (env_Tx_error env tr n) as Herr;
      destruct (snd (env_Tx env tr n)) as [e|]
  end.
  - eexists 0, (Some e), _. split; [reflexivity|]. split.
    + split; [lia|]. apply Z.pow_pos_nonneg; lia.
    + intros e' He'. inversion He'; subst. split; [reflexivity|].
      apply Herr. reflexivity.
  - eexists _, None, _. split; [reflexivity|]. split; [|discriminate].
    match goal with
    | |- 0 <= le_uint (firstn ?k ?l) < _ =>
        pose proof (le_uint_bound (firstn k l)
                      (Forall_firstn_byte k l Hbytes)) as Hb;
        assert (Hk : length (firstn k l) = k)
    end.
    { apply firstn_length_le. rewrite Hlen.
      destruct (read_padding_cases fn) as [[_ ->]|[_ ->]];
        destruct Hsize as [->|[->| ->]]; cbn; lia. }
    rewrite Hk in Hb.
    replace (2 ^ (8 * size)) with (256 ^ Z.of_nat (Z.to_nat size));
      [exact Hb|].
    destruct Hsize as [->|[->| ->]]; reflexivity.
Qed.

Lemma register_read_result_witness :
  (2 = 1 \/ 2 = 2 \/ 2 = 4) /\
  exists v err s',
    sized_read (Script.env [([0x34; 0x12], None)] 0) 2 1 0x10 picoState
    = Ret (v, err) s' /\
    0 <= v < 2 ^ (8 * 2).
Proof.
  split; [right; left; reflexivity|].
  destruct (register_read_result (Script.env [([0x34; 0x12], None)] 0)
              1 0x10 2 picoState (or_intror (or_introl eq_refl)))
    as (v & err & s' & Hrun & Hv & _).
  exists v, err, s'. split; [exact Hrun|exact Hv].
Defined.

(* ===================================================================== *)
(** * More on bring-up *)

(** X14. [NewDev] stores the chip-select and power pins, keeps the
    shared data pin whatever it is (the no-pin value included), does not
    store the interrupt pin (the field keeps its zero value) and starts
    with zeroed bookkeeping and a zeroed 500-word buffer. *)
Theorem NewDev_fields (NoPin pcs pwl pirq psd : Z) :
  let d := NewDev NoPin pcs pwl pirq psd in
  cs d = pcs /\ wlRegOn d = pwl /\ sharedSD d = psd /\ irq d = 0 /\
  lastSize d = 0 /\ lastHeader d = (0, 0) /\
  currentBackplaneWindow d = 0 /\ lastBackplaneWindow d = 0 /\
  buf d = repeat 0 500.
Proof.
  cbv zeta. unfold NewDev, sharedDATA. cbn [andb].
  repeat split.
  cbn [sharedSD]. destruct (Z.eqb_spec psd NoPin) as [->|]; reflexivity.
Qed.

(** X15. A run of [Init] that returns [nil] leaves the configuration
    write in the handle's bookkeeping ([lastSize] 8, [lastHeader] the
    configuration command and value, [lastBackplaneWindow] the current
    window), because function 0 is the backplane-function constant; a
    run that returns an error leaves the handle as it was. The pins and
    the current window never change. *)
Theorem Init_handle (env : Env) (fuel : nat) (s : State)
    (res : option error) (s' : State) :
  Init env fuel s = Ret res s' ->
  let d := st_dev s in
  let d' := st_dev s' in
  cs d' = cs d /\ wlRegOn d' = wlRegOn d /\ sharedSD d' = sharedSD d /\
  irq d' = irq d /\ buf d' = buf d /\
  currentBackplaneWindow d' = currentBackplaneWindow d /\
  (res = None ->
   lastSize d' = 8 /\ lastHeader d' = (configCommand, initConfigValue) /\
   lastBackplaneWindow d' = currentBackplaneWindow d) /\
  (res <> None -> d' = d).
Proof.
  intros Hrun. cbv zeta.
  destruct (Init_sound env fuel s res s' Hrun)
    as (misses & ending & _ & _ & Hres & Hs').
  subst res s'. cbn [st_dev].
  destruct ending as [r|r e|r]; cbn [Init_dev ending_result].
  all: repeat split; try reflexivity.
  all: congruence.
Qed.

Lemma Init_handle_witness :
  let env := Script.env [([0xFE; 0xED; 0xBE; 0xAD], None)] Millisecond in
  exists s',
    Init env 2 picoState = Ret None s' /\
    lastSize (st_dev s') = 8 /\
    lastHeader (st_dev s') = (configCommand, initConfigValue).
Proof.
  cbv zeta.
  set (env := Script.env [([0xFE; 0xED; 0xBE; 0xAD], None)] Millisecond).
  destruct (Init env 2 picoState) as [res s'| |] eqn:Hrun;
    try (vm_compute in Hrun; discriminate Hrun).
  assert (Hres : res = None)
    by (vm_compute in Hrun; inversion Hrun; reflexivity).
  subst res. exists s'. split; [reflexivity|].
  destruct (Init_handle env 2 picoState None s' Hrun)
    as (_ & _ & _ & _ & _ & _ & Hok & _).
  destruct (Hok eq_refl) as (Hsize & Hhdr & _).
  split; [exact Hsize|exact Hhdr].
Defined.

(** X16. A transport error on a poll ends [Init] at once: after the
    polls that missed, the failing exchange is the last event, nothing
    is printed, no configuration write is issued, and the error returned
    is the transport's, unchanged. *)
Theorem Init_transport_error (env : Env) (s : State)
    (misses : list (list Z)) (r : list Z) (code : Z) (fuel : nat) :
  let d := st_dev s in
  let tr0 := st_trace s ++ bringup_events d in
  let start := env_now env tr0 in
  (length misses + 2 <= fuel)%nat ->
  poll_misses env start d tr0 misses ->
  poll_end env start d (tr0 ++ misses_events d misses)
    (PollTransportError r (TransportError code)) ->
  Init env fuel s
  = Ret (Some (TransportError code))
      (mkState d
         (tr0 ++ misses_events d misses ++
          poll_exchange d r (Some (TransportError code)))) /\
  bus_commands
    (bringup_events d ++ misses_events d misses ++
     poll_exchange d r (Some (TransportError code)))
  = repeat pollCommand (length misses) ++ [pollCommand].
Proof.
  cbv zeta. intros Hfuel Hm He. split.
  - rewrite (Init_complete env fuel s misses
               (PollTransportError r (TransportError code)) Hfuel Hm He).
    cbn [ending_result Init_dev]. unfold Init_events. cbn [ending_events].
    rewrite app_nil_r, <- !app_assoc. reflexivity.
  - pose proof (bus_commands_Init (st_dev s) misses
                  (PollTransportError r (TransportError code))) as H.
    unfold Init_events in H. cbn [ending_events] in H.
    rewrite app_nil_r in H. exact H.
Qed.

(** A bus whose first [spi.Tx] fails with code 7. *)
Lemma Init_transport_error_witness :
  let env := Script.env [([], Some 7)] Millisecond in
  let d := picoDev in
  let tr0 := bringup_events d in
  (0 + 2 <= 2)%nat /\
  poll_misses env (env_now env tr0) d tr0 [] /\
  poll_end env (env_now env tr0) d (tr0 ++ misses_events d [])
    (PollTransportError (repeat 0 8) (TransportError 7)) /\
  Init env 2 picoState
  = Ret (Some (TransportError 7))
      (mkState d
         (tr0 ++ poll_exchange d (repeat 0 8) (Some (TransportError 7)))).
Proof.
  cbv zeta.
  set (env := Script.env [([], Some 7)] Millisecond).
  assert (Hfuel : (@length (list Z) [] + 2 <= 2)%nat) by (cbn; lia).
  assert (Hm : poll_misses env
                 (env_now env (st_trace picoState ++ bringup_events (st_dev picoState)))
                 (st_dev picoState)
                 (st_trace picoState ++ bringup_events (st_dev picoState)) [])
    by exact I.
  assert (He : poll_end env
                 (env_now env (st_trace picoState ++ bringup_events (st_dev picoState)))
                 (st_dev picoState)
                 ((st_trace picoState ++ bringup_events (st_dev picoState)) ++
                  misses_events (st_dev picoState) [])
                 (PollTransportError (repeat 0 8) (TransportError 7)))
    by (vm_compute; reflexivity).
  split; [exact Hfuel|]. split; [exact Hm|]. split; [exact He|].
  exact (proj1 (Init_transport_error env picoState [] (repeat 0 8) 7 2
                  Hfuel Hm He)).
Defined.

Lemma tx_requests_app tr1 tr2 :
  tx_requests (tr1 ++ tr2) = tx_requests tr1 ++ tx_requests tr2.
Proof. unfold tx_requests. apply flat_map_app. Qed.

Lemma tx_requests_misses d misses :
  tx_requests (misses_events d misses) = repeat 8%nat (length misses).
Proof.
  induction misses as [|r misses IH]; [reflexivity|].
  cbn [misses_events map concat length repeat].
  fold (misses_events d misses). rewrite tx_requests_app, IH. reflexivity.
Qed.

(** X17. In every run of [Init] that returns, the transport is asked
    for exactly 8 bytes per handshake poll (4 and the padding that the
    backplane-function constant 0 brings) and for nothing else, there is
    at least one poll, and a run that returns [nil] ends with
    chip-select driven high. *)
Theorem Init_transport_requests (env : Env) (fuel : nat) (s : State)
    (res : option error) (s' : State) :
  Init env fuel s = Ret res s' ->
  exists new polls,
    st_trace s' = st_trace s ++ new /\
    tx_requests new = repeat 8%nat polls /\
    (1 <= polls)%nat /\
    (res = None -> last_event (st_trace s') = Some (EvHigh (cs (st_dev s)))).
Proof.
  intros Hrun.
  destruct (Init_sound env fuel s res s' Hrun)
    as (misses & ending & _ & _ & Hres & Hs').
  exists (Init_events (st_dev s) misses ending), (S (length misses)).
  subst s'. cbn [st_trace]. split; [reflexivity|]. split; [|split; [lia|]].
  - unfold Init_events. rewrite !tx_requests_app, tx_requests_misses.
    change (tx_requests (bringup_events (st_dev s))) with (@nil nat).
    cbn [app repeat]. rewrite repeat_cons.
    f_equal. destruct ending as [r|r e|r]; reflexivity.
  - intros Hnil. subst res.
    destruct ending as [r|r e|r]; try discriminate.
    unfold Init_events. cbn [ending_events].
    do 3 apply last_event_app_r. reflexivity.
Qed.

Lemma Init_transport_requests_witness :
  let env := Script.env [([0xFE; 0xED; 0xBE; 0xAD], None)] Millisecond in
  exists s' new polls,
    Init env 2 picoState = Ret None s' /\
    st_trace s' = st_trace picoState ++ new /\
    tx_requests new = repeat 8%nat polls.
Proof.
  cbv zeta.
  set (env := Script.env [([0xFE; 0xED; 0xBE; 0xAD], None)] Millisecond).
  destruct (Init env 2 picoState) as [res s'| |] eqn:Hrun;
    try (vm_compute in Hrun; discriminate Hrun).
  assert (Hres : res = None)
    by (vm_compute in Hrun; inversion Hrun; reflexivity).
  subst res.
  destruct (Init_transport_requests env 2 picoState None s' Hrun)
    as (new & polls & Htr & Htx & _).
  exists s', new, polls. split; [reflexivity|]. split; [exact Htr|exact Htx].
Defined.

(* ===================================================================== *)
(** * More on alignment and the CLM location *)

Lemma align32_pow2 val k :
  0 <= k < 32 -> 0 <= val -> val + 2 ^ k <= 2 ^ 32 ->
  align32 val (2 ^ k) = 2 ^ k * ((val + 2 ^ k - 1) / 2 ^ k).
Proof.
  intros Hk H0 Hhi.
  assert (Hp : 0 < 2 ^ k) by (apply Z.pow_pos_nonneg; lia).
  assert (Hpk : 2 ^ k < 2 ^ 32) by (apply Z.pow_lt_mono_r; lia).
  unfold align32, U32.andnot, U32.sub, U32.add, U32.wrap.
  rewrite Zminus_mod_idemp_l.
  rewrite (Z.mod_small (val + 2 ^ k - 1)) by lia.
  rewrite (Z.mod_small (2 ^ k - 1)) by lia.
  replace (2 ^ k - 1) with (Z.ones k)
    by (rewrite Z.ones_equiv; lia).
  rewrite Z.ldiff_ones_r by lia.
  rewrite Z.shiftr_div_pow2, Z.shiftl_mul_pow2 by lia. lia.
Qed.

(** X18. For an alignment 2^k (k below 32) and a value that leaves room
    for it below 2^32, [align32] gives the least multiple of 2^k that
    is at least the value: a multiple, between the value and the value
    plus 2^k - 1, equal to the value when that is already aligned, and
    unchanged by aligning again. *)
Theorem align32_rounds_up (val k : Z) :
  0 <= k < 32 -> 0 <= val -> val + 2 ^ k <= 2 ^ 32 ->
  let a := align32 val (2 ^ k) in
  a mod 2 ^ k = 0 /\
  val <= a < val + 2 ^ k /\
  (val mod 2 ^ k = 0 -> a = val) /\
  align32 a (2 ^ k) = a.
Proof.
  intros Hk H0 Hhi. cbv zeta.
  assert (Hp : 0 < 2 ^ k) by (apply Z.pow_pos_nonneg; lia).
  rewrite (align32_pow2 val k) by assumption.
  set (q := (val + 2 ^ k - 1) / 2 ^ k).
  pose proof (Z.div_mod (val + 2 ^ k - 1) (2 ^ k) ltac:(lia)) as Hdm.
  pose proof (Z.mod_pos_bound (val + 2 ^ k - 1) (2 ^ k) Hp) as Hm.
  fold q in Hdm.
  assert (Hq0 : 0 <= q) by (apply Z.div_pos; lia).
  split; [|split; [|split]].
  - rewrite Z.mul_comm. apply Z.mod_mul. lia.
  - lia.
  - intros Hal.
    pose proof (Z.div_mod val (2 ^ k) ltac:(lia)) as Hv.
    rewrite Hal in Hv.
    assert (Hq : q = val / 2 ^ k).
    { unfold q. rewrite Hv at 1.
      replace (2 ^ k * (val / 2 ^ k) + 0 + 2 ^ k - 1)
        with ((2 ^ k - 1) + (val / 2 ^ k) * 2 ^ k) by lia.
      rewrite Z.div_add by lia. rewrite Z.div_small by lia. lia. }
    rewrite Hq. lia.
  - assert (Hroom : 2 ^ k * q + 2 ^ k <= 2 ^ 32).
    { assert (Hsplit : 2 ^ 32 = 2 ^ k * 2 ^ (32 - k)).
      { rewrite <- Z.pow_add_r by lia. f_equal. lia. }
      assert (Hlt : 2 ^ k * q < 2 ^ k * 2 ^ (32 - k)) by lia.
      apply Z.mul_lt_mono_pos_l in Hlt; [|assumption].
      rewrite Hsplit. nia. }
    rewrite align32_pow2 by (assumption || nia).
    replace (2 ^ k * q + 2 ^ k - 1) with ((2 ^ k - 1) + q * 2 ^ k) by lia.
    rewrite Z.div_add by lia. rewrite Z.div_small by lia. lia.
Qed.

Lemma align32_rounds_up_witness :
  0 <= 9 < 32 /\ 0 <= 513 /\ 513 + 2 ^ 9 <= 2 ^ 32 /\
  align32 513 (2 ^ 9) mod 2 ^ 9 = 0 /\
  513 <= align32 513 (2 ^ 9) < 513 + 2 ^ 9.
Proof.
  assert (H1 : 0 <= 9 < 32) by lia.
  assert (H2 : 0 <= 513) by lia.
  assert (H3 : 513 + 2 ^ 9 <= 2 ^ 32) by lia.
  split; [exact H1|]. split; [exact H2|]. split; [exact H3|].
  destruct (align32_rounds_up 513 9 H1 H2 H3) as (Ha & Hb & _).
  split; [exact Ha|exact Hb].
Defined.

(** X19. Near the top of [uint32] the rounding wraps: for a value
    within 511 of 2^32, [align32 val 512] is 0, below the value. *)
Theorem align32_wraps (val : Z) :
  2 ^ 32 - 512 < val < 2 ^ 32 -> align32 val 512 = 0.
Proof.
  intros Hval. unfold align32, U32.andnot, U32.sub, U32.add, U32.wrap.
  rewrite Zminus_mod_idemp_l.
  replace (val + 512 - 1) with ((val + 511 - 2 ^ 32) + 1 * 2 ^ 32) by lia.
  rewrite Z.mod_add by lia.
  rewrite (Z.mod_small (val + 511 - 2 ^ 32)) by lia.
  change ((512 - 1) mod 2 ^ 32) with (Z.ones 9).
  rewrite Z.ldiff_ones_r by lia.
  rewrite Z.shiftr_div_pow2 by lia.
  change (2 ^ 9) with 512. rewrite Z.div_small by lia. reflexivity.
Qed.

Lemma align32_wraps_witness :
  2 ^ 32 - 512 < 2 ^ 32 - 1 < 2 ^ 32 /\ align32 (2 ^ 32 - 1) 512 = 0.
Proof.
  assert (H : 2 ^ 32 - 512 < 2 ^ 32 - 1 < 2 ^ 32) by lia.
  split; [exact H|]. exact (align32_wraps (2 ^ 32 - 1) H).
Defined.

(** X20. When it does not panic, [GetCLM] returns a slice that starts
    at the first 512-byte boundary at or after the end of the firmware
    bytes, less than 512 bytes past it: the CLM bytes never overlap the
    firmware's own bytes, the slice has length [clmLen] and keeps the
    rest of the capacity. *)
Theorem GetCLM_placement (clmLen : Z) (firmware : ByteSlice) :
  0 <= clmLen < 2 ^ 32 ->
  sl_wf firmware ->
  Z.of_nat (sl_cap firmware) <= maxInt ->
  forall clm, GetCLM clmLen firmware = Ok clm ->
  exists gap,
    0 <= gap < 512 /\
    (Z.of_nat (sl_len firmware) + gap) mod 512 = 0 /\
    sl_arr clm
    = skipn (Z.to_nat gap) (skipn (sl_len firmware) (sl_arr firmware)) /\
    Z.of_nat (sl_len clm) = clmLen /\
    Z.of_nat (sl_cap clm)
    = Z.of_nat (sl_cap firmware) - Z.of_nat (sl_len firmware) - gap /\
    sl_wf clm.
Proof.
  intros Hclm Hwf Hint clm Hok.
  set (len := Z.of_nat (sl_len firmware)).
  set (offset := 512 * ((len + 511) / 512)).
  pose proof (align32_512_bounds len ltac:(unfold len; lia)) as Hoff.
  fold offset in Hoff.
  destruct (Z.lt_ge_cases (Z.of_nat (sl_cap firmware)) (offset + clmLen))
    as [Hsmall|Hfit].
  - destruct (GetCLM_too_small clmLen Hclm firmware Hwf Hint Hsmall)
      as [msg Hpanic].
    rewrite Hpanic in Hok. discriminate.
  - rewrite (GetCLM_fits clmLen Hclm firmware Hwf Hint) in Hok
      by (unfold offset, len in Hfit; lia).
    fold len in Hok. fold offset in Hok.
    inversion Hok; subst clm. clear Hok.
    exists (offset - len). cbn [sl_arr sl_len].
    split; [lia|]. split.
    + replace (len + (offset - len)) with offset by lia.
      unfold offset. rewrite Z.mul_comm. apply Z.mod_mul. lia.
    + split; [|split; [lia|split]].
      * rewrite skipn_skipn. f_equal. unfold len. lia.
      * unfold sl_cap. cbn [sl_arr]. rewrite length_skipn.
        unfold sl_cap in Hfit. fold len. lia.
      * unfold sl_wf, sl_cap. cbn [sl_arr sl_len]. rewrite length_skipn.
        unfold sl_cap in Hfit. lia.
Qed.

Lemma GetCLM_placement_witness :
  0 <= 4 < 2 ^ 32 /\
  sl_wf (mkSlice (repeat 7 600) 100) /\
  Z.of_nat (sl_cap (mkSlice (repeat 7 600) 100)) <= maxInt /\
  GetCLM 4 (mkSlice (repeat 7 600) 100) = Ok (mkSlice (repeat 7 88) 4) /\
  exists gap,
    0 <= gap < 512 /\ (Z.of_nat 100 + gap) mod 512 = 0.
Proof.
  assert (H1 : 0 <= 4 < 2 ^ 32) by lia.
  assert (H2 : sl_wf (mkSlice (repeat 7 600) 100))
    by (unfold sl_wf, sl_cap; cbn [sl_arr sl_len]; rewrite repeat_length; lia).
  assert (H3 : Z.of_nat (sl_cap (mkSlice (repeat 7 600) 100)) <= maxInt)
    by (unfold sl_cap, maxInt; cbn [sl_arr]; rewrite repeat_length; lia).
  assert (H4 : GetCLM 4 (mkSlice (repeat 7 600) 100)
               = Ok (mkSlice (repeat 7 88) 4)) by (vm_compute; reflexivity).
  split; [exact H1|]. split; [exact H2|]. split; [exact H3|].
  split; [exact H4|].
  destruct (GetCLM_placement 4 (mkSlice (repeat 7 600) 100) H1 H2 H3 _ H4)
    as (gap & Hgap & Hal & _).
  exists gap. split; [exact Hgap|exact Hal].
Defined.

(* ===================================================================== *)
(** * Firmware validation *)

Lemma bytes_Equal_eq a : forall b, Firmware.bytes_Equal a b = true <-> a = b.
Proof.
  induction a as [|x a IH]; intros [|y b]; cbn [Firmware.bytes_Equal];
    try (split; [discriminate|discriminate]); [tauto|].
  rewrite andb_true_iff, Z.eqb_eq, IH. split.
  - intros [-> ->]. reflexivity.
  - intros H. inversion H. auto.
Qed.

Lemma firmware_index_nth b i :
  (i < length b)%nat -> Firmware.index b (Z.of_nat i) = Some (nth i b 0).
Proof.
  intros Hi. unfold Firmware.index.
  destruct (Z.leb_spec 0 (Z.of_nat i)); [|lia].
  rewrite Nat2Z.id. apply nth_error_nth'. assumption.
Qed.

Lemma firmware_sub_in_range b lo hi :
  0 <= lo <= hi -> hi <= Z.of_nat (length b) ->
  Firmware.sub b lo hi
  = Some (firstn (Z.to_nat (hi - lo)) (skipn (Z.to_nat lo) b)).
Proof.
  intros Hlo Hhi. unfold Firmware.sub.
  destruct (Z.leb_spec 0 lo); [|lia].
  destruct (Z.leb_spec lo hi); [|lia].
  destruct (Z.leb_spec hi (Z.of_nat (length b))); [|lia].
  reflexivity.
Qed.

(** The search loop never indexes outside the tail and finds the least
    position of the marker in its range, if there is one. *)
Lemma firmware_search b n : forall i,
  length b = 800%nat -> 80 <= i -> i + Z.of_nat n <= 500 ->
  exists f,
    Firmware.search b 784 i n = Some f /\
    ((f = -1 /\
      forall j, i <= j < i + Z.of_nat n ->
                FirmwareSpec.window b j <> Firmware.cmpString) \/
     (i <= f < i + Z.of_nat n /\
      FirmwareSpec.window b f = Firmware.cmpString /\
      forall j, i <= j < f ->
                FirmwareSpec.window b j <> Firmware.cmpString)).
Proof.
  induction n as [|n IH]; intros i Hlen Hi Hn.
  - exists (-1). split; [reflexivity|]. left. split; [reflexivity|].
    intros j Hj. lia.
  - cbn [Firmware.search].
    replace (784 - 3 - i) with (781 - i) by lia.
    rewrite firmware_sub_in_range by (rewrite ?Hlen; lia).
    replace (781 - i + 9 - (781 - i)) with 9 by lia.
    change (Z.to_nat 9) with 9%nat.
    fold (FirmwareSpec.window b i).
    destruct (Firmware.bytes_Equal (FirmwareSpec.window b i) Firmware.cmpString)
      eqn:Heq.
    + apply bytes_Equal_eq in Heq.
      exists i. split; [reflexivity|]. right.
      split; [lia|]. split; [exact Heq|]. intros j Hj. lia.
    + assert (Hne : FirmwareSpec.window b i <> Firmware.cmpString).
      { intros Hc. apply bytes_Equal_eq in Hc. congruence. }
      destruct (IH (i + 1) Hlen ltac:(lia) ltac:(lia))
        as (f & Hf & [[Hm Hall]|(Hr & Hw & Hall)]).
      * exists f. split; [exact Hf|]. left. split; [exact Hm|].
        intros j Hj. destruct (Z.eq_dec j i) as [->|]; [exact Hne|].
        apply Hall. lia.
      * exists f. split; [exact Hf|]. right.
        split; [lia|]. split; [exact Hw|].
        intros j Hj. destruct (Z.eq_dec j i) as [->|]; [exact Hne|].
        apply Hall. lia.
Qed.

(** The scan stops at the first zero byte, which it reaches whenever
    there is one. *)
Lemma firmware_scan l : forall k,
  (k < length l)%nat -> nth k l 1 = 0 ->
  exists j,
    Firmware.scan l = Some (Z.of_nat j) /\ (j <= k)%nat /\
    nth j l 1 = 0 /\ ~ In 0 (firstn j l).
Proof.
  induction l as [|x l IH]; intros k Hk Hz; cbn [length] in Hk; [lia|].
  cbn [Firmware.scan].
  destruct (Z.eqb_spec x 0) as [->|Hx].
  - exists 0%nat. split; [reflexivity|]. split; [lia|].
    split; [reflexivity|]. intros [].
  - destruct k as [|k]; [cbn in Hz; contradiction|].
    destruct (IH k ltac:(lia) Hz) as (j & Hs & Hjk & Hnz & Hnin).
    exists (S j). rewrite Hs. cbn [option_map].
    split; [f_equal; lia|]. split; [lia|]. split; [exact Hnz|].
    cbn [firstn]. intros [Hc|Hc]; [congruence|contradiction].
Qed.

Lemma firmware_tail_length src :
  (800 <= length src)%nat -> length (FirmwareSpec.tail src) = 800%nat.
Proof. intros H. unfold FirmwareSpec.tail. rewrite length_skipn. lia. Qed.

Lemma validateFirmware_run src :
  (800 <= length src)%nat ->
  let b := FirmwareSpec.tail src in
  Firmware.validateFirmware src
  = if (FirmwareSpec.trailLen b <? 500) && (nth 781 b 0 =? 0)
    then
      match Firmware.search b 784 80 (Z.to_nat (FirmwareSpec.trailLen b - 80)) with
      | Some f =>
          if f =? -1 then FirmwareSpec.notFound
          else
            match Firmware.scan (skipn (Z.to_nat (781 - f)) b) with
            | Some j =>
                match Firmware.sub b (781 - f) (781 - f + j - 1) with
                | Some v => Firmware.Returned None (Some v)
                | None => Firmware.Panics
                end
            | None => Firmware.Panics
            end
      | None => Firmware.Panics
      end
    else FirmwareSpec.notFound.
Proof.
  intros Hlen. cbv zeta. unfold Firmware.validateFirmware.
  destruct (Z.gtb_spec 800 (Z.of_nat (length src))) as [Hbad|_]; [lia|].
  replace (Z.to_nat (Z.of_nat (length src) - 800)) with (length src - 800)%nat
    by lia.
  fold (FirmwareSpec.tail src).
  pose proof (firmware_tail_length src Hlen) as Hb.
  change (800 - 16 - 2) with (Z.of_nat 782).
  change (800 - 16 - 1) with (Z.of_nat 783).
  change (800 - 16 - 3) with (Z.of_nat 781).
  rewrite !firmware_index_nth by (rewrite Hb; lia).
  fold (FirmwareSpec.trailLen (FirmwareSpec.tail src)).
  change (800 - 16) with 784. change (Z.of_nat 781) with (784 - 3).
  unfold Firmware.verbose_debug.
  destruct ((FirmwareSpec.trailLen (FirmwareSpec.tail src) <? 500)
            && (nth 781 (FirmwareSpec.tail src) 0 =? 0)); [|reflexivity].
  destruct (Firmware.search _ 784 80 _) as [f|]; [|reflexivity].
  destruct (f =? -1); reflexivity.
Qed.

Lemma cmpString_nonzero j :
  (j < 9)%nat -> nth j Firmware.cmpString 1 <> 0.
Proof.
  intros Hj. do 9 (destruct j as [|j]; [cbn; discriminate|]). lia.
Qed.

(** Every image of at least 800 bytes is either rejected as not found,
    or accepted with the version bytes handed to [Debug]. *)
Lemma validateFirmware_cases src :
  (800 <= length src)%nat ->
  let b := FirmwareSpec.tail src in
  (Firmware.validateFirmware src = FirmwareSpec.notFound /\
   ~ (FirmwareSpec.trailLen b < 500 /\ nth 781 b 0 = 0 /\
      exists i, FirmwareSpec.marker_at b i)) \/
  (exists i n,
     Firmware.validateFirmware src
     = Firmware.Returned None (Some (FirmwareSpec.version b i n)) /\
     FirmwareSpec.accepted b i n).
Proof.
  intros Hlen. cbv zeta. rewrite validateFirmware_run by assumption. cbv zeta.
  set (b := FirmwareSpec.tail src).
  pose proof (firmware_tail_length src Hlen) as Hb. fold b in Hb.
  destruct (Z.ltb_spec (FirmwareSpec.trailLen b) 500) as [Htl|Htl];
    [|left; split; [reflexivity|intros (H & _); lia]].
  destruct (Z.eqb_spec (nth 781 b 0) 0) as [Hnul|Hnul];
    [|left; split; [reflexivity|intros (_ & H & _); contradiction]].
  cbn [andb].
  destruct (firmware_search b (Z.to_nat (FirmwareSpec.trailLen b - 80)) 80
              Hb ltac:(lia) ltac:(lia))
    as (f & Hsearch & [[Hm Hall]|(Hr & Hw & Hleast)]).
  - rewrite Hsearch, Hm. cbn [Z.eqb]. left. split; [reflexivity|].
    intros (_ & _ & i & Hi & Hwi). apply (Hall i); [lia|exact Hwi].
  - rewrite Hsearch.
    destruct (Z.eqb_spec f (-1)) as [Hneg|_]; [lia|].
    right.
    set (p := Z.to_nat (781 - f)).
    assert (Hp : (p + Z.to_nat f = 781)%nat) by (unfold p; lia).
    assert (Hzero : nth (Z.to_nat f) (skipn p b) 1 = 0).
    { rewrite nth_skipn, Hp.
      rewrite (nth_indep b 1 0) by (rewrite Hb; lia). exact Hnul. }
    destruct (firmware_scan (skipn p b) (Z.to_nat f)
                ltac:(rewrite length_skipn, Hb; lia) Hzero)
      as (j & Hscan & Hjf & Hjz & Hnin).
    assert (Hj9 : (9 <= j)%nat).
    { destruct (Nat.lt_ge_cases j 9) as [Hlt|]; [|assumption].
      exfalso. apply (cmpString_nonzero j Hlt).
      rewrite <- Hw. unfold FirmwareSpec.window. fold p.
      rewrite nth_firstn.
      destruct (Nat.ltb_spec j 9); [exact Hjz|lia]. }
    rewrite Hscan.
    rewrite firmware_sub_in_range by (rewrite ?Hb; lia).
    replace (Z.to_nat (781 - f + Z.of_nat j - 1 - (781 - f))) with (j - 1)%nat
      by lia.
    exists f, (j - 1)%nat. split; [reflexivity|].
    unfold FirmwareSpec.accepted, FirmwareSpec.marker_at, FirmwareSpec.version.
    fold p. replace (S (j - 1)) with j by lia.
    repeat split; try assumption; try lia.
    rewrite nth_skipn in Hjz. exact Hjz.
Qed.

(** X21. [validateFirmware] never panics: an image shorter than 800
    bytes is refused as too small, and any other image is either refused
    as holding no valid firmware or accepted with [nil], after the
    version bytes were handed to [Debug]. No index or slice it computes
    leaves the last 800 bytes. *)
Theorem validateFirmware_verdicts (src : list Z) :
  Firmware.validateFirmware src <> Firmware.Panics /\
  ((length src < 800)%nat ->
   Firmware.validateFirmware src = FirmwareSpec.tooSmall) /\
  ((800 <= length src)%nat ->
   Firmware.validateFirmware src = FirmwareSpec.notFound \/
   exists version,
     Firmware.validateFirmware src = Firmware.Returned None (Some version)).
Proof.
  assert (Hshort : (length src < 800)%nat ->
                   Firmware.validateFirmware src = FirmwareSpec.tooSmall).
  { intros Hlt. unfold Firmware.validateFirmware.
    destruct (Z.gtb_spec 800 (Z.of_nat (length src))); [reflexivity|lia]. }
  assert (Hlong : (800 <= length src)%nat ->
            Firmware.validateFirmware src = FirmwareSpec.notFound \/
            exists version,
              Firmware.validateFirmware src
              = Firmware.Returned None (Some version)).
  { intros Hge.
    destruct (validateFirmware_cases src Hge)
      as [[Hnf _]|(i & n & Hok & _)]; [left; exact Hnf|].
    right. eexists. exact Hok. }
  split; [|split; assumption].
  destruct (Nat.lt_ge_cases (length src) 800) as [Hlt|Hge].
  - rewrite (Hshort Hlt). discriminate.
  - destruct (Hlong Hge) as [-> | [v ->]]; discriminate.
Qed.

Lemma validateFirmware_verdicts_witness :
  (length (repeat 0 799) < 800)%nat /\
  Firmware.validateFirmware (repeat 0 799) = FirmwareSpec.tooSmall.
Proof.
  assert (H : (length (repeat 0 799) < 800)%nat)
    by (rewrite repeat_length; lia).
  split; [exact H|].
  exact (proj1 (proj2 (validateFirmware_verdicts (repeat 0 799))) H).
Defined.

(** X22. [validateFirmware] returns [nil] exactly when the image has at
    least 800 bytes and, in its last 800 bytes, the little-endian
    trailer length at offsets 782-783 is below 500, offset 781 holds
    zero, and the nine bytes "Version: " start [i] bytes before offset
    781 for some [i] from 80 up to, but not including, the trailer
    length. *)
Theorem validateFirmware_accepts_iff (src : list Z) :
  let b := FirmwareSpec.tail src in
  (exists debug, Firmware.validateFirmware src = Firmware.Returned None debug)
  <->
  ((800 <= length src)%nat /\
   FirmwareSpec.trailLen b < 500 /\ nth 781 b 0 = 0 /\
   exists i, 80 <= i < FirmwareSpec.trailLen b /\
             FirmwareSpec.window b i = Firmware.cmpString).
Proof.
  cbv zeta. split.
  - intros [debug Hok].
    destruct (Nat.lt_ge_cases (length src) 800) as [Hlt|Hge].
    + exfalso. unfold Firmware.validateFirmware in Hok.
      destruct (Z.gtb_spec 800 (Z.of_nat (length src))); [discriminate|lia].
    + split; [exact Hge|].
      destruct (validateFirmware_cases src Hge)
        as [[Hnf _]|(i & n & _ & Hacc)].
      * rewrite Hnf in Hok. discriminate.
      * destruct Hacc as (Htl & Hnul & Hmark & _).
        split; [exact Htl|]. split; [exact Hnul|].
        exists i. exact Hmark.
  - intros (Hge & Htl & Hnul & i & Hi & Hw).
    destruct (validateFirmware_cases src Hge)
      as [[_ Hno]|(i' & n & Hok & _)].
    + exfalso. apply Hno. split; [exact Htl|]. split; [exact Hnul|].
      exists i. split; assumption.
    + eexists. exact Hok.
Qed.

(** X23. When [validateFirmware] returns [nil], what it handed to
    [Debug] is the run of bytes that starts at the marker nearest to
    offset 781 within the searched range and stops one byte short of
    the first zero byte after it: at least eight bytes, beginning with
    "Version:", free of zero bytes, and shorter than the marker's
    distance to offset 781. *)
Theorem validateFirmware_version (src : list Z) (debug : option (list Z)) :
  Firmware.validateFirmware src = Firmware.Returned None debug ->
  let b := FirmwareSpec.tail src in
  exists i n,
    debug = Some (FirmwareSpec.version b i n) /\
    FirmwareSpec.accepted b i n /\
    length (FirmwareSpec.version b i n) = n /\
    firstn 8 (FirmwareSpec.version b i n) = firstn 8 Firmware.cmpString /\
    ~ In 0 (FirmwareSpec.version b i n).
Proof.
  intros Hok. cbv zeta.
  assert (Hge : (800 <= length src)%nat).
  { destruct (Nat.lt_ge_cases (length src) 800) as [Hlt|Hge]; [|assumption].
    exfalso. unfold Firmware.validateFirmware in Hok.
    destruct (Z.gtb_spec 800 (Z.of_nat (length src))); [discriminate|lia]. }
  pose proof (firmware_tail_length src Hge) as Hb.
  destruct (validateFirmware_cases src Hge) as [[Hnf _]|(i & n & Hrun & Hacc)].
  - rewrite Hnf in Hok. discriminate.
  - rewrite Hrun in Hok. inversion Hok; subst debug.
    exists i, n. split; [reflexivity|]. split; [exact Hacc|].
    destruct Hacc as (Htl & Hnul & (Hi & Hw) & _ & Hn8 & Hni & Hnz & _).
    unfold FirmwareSpec.version in *.
    split; [|split].
    + apply firstn_length_le. rewrite length_skipn, Hb. lia.
    + rewrite firstn_firstn. replace (Nat.min 8 n) with 8%nat by lia.
      rewrite <- Hw. unfold FirmwareSpec.window.
      rewrite firstn_firstn. reflexivity.
    + intros Hin. apply Hnz.
      rewrite <- (firstn_skipn n (firstn (S n) _)).
      apply in_or_app. left.
      rewrite firstn_firstn. replace (Nat.min n (S n)) with n by lia.
      exact Hin.
Qed.

Lemma validateFirmware_version_witness :
  Firmware.validateFirmware FirmwareSpec.sample
  = Firmware.Returned None
      (Some [86; 101; 114; 115; 105; 111; 110; 58; 32; 55; 46; 57; 53]) /\
  exists i n,
    Some [86; 101; 114; 115; 105; 111; 110; 58; 32; 55; 46; 57; 53]
    = Some (FirmwareSpec.version (FirmwareSpec.tail FirmwareSpec.sample) i n) /\
    length (FirmwareSpec.version (FirmwareSpec.tail FirmwareSpec.sample) i n)
    = n.
Proof.
  assert (H : Firmware.validateFirmware FirmwareSpec.sample
              = Firmware.Returned None
                  (Some [86; 101; 114; 115; 105; 111; 110; 58; 32; 55; 46; 57; 53]))
    by (vm_compute; reflexivity).
  split; [exact H|].
  destruct (validateFirmware_version FirmwareSpec.sample _ H)
    as (i & n & Hd & _ & Hl & _).
  exists i, n. split; [exact Hd|exact Hl].
Defined.
